(** * Streaming chat assembler of Clotho's [useChatbot] hook

    Shallow embedding of [sendMessage] from
    [src/Clotho/src/hooks/useChatbot.ts] (plain-text streaming over
    [fetch] + [TextDecoder]) and of the guard of the older
    [sendMessage] in [src/unnamed/part_000].

    Data as the code has it:
    - bytes of a [Uint8Array] chunk are [Z] values in [0, 255];
    - JavaScript strings are lists of Unicode code points ([list Z]);
      every character the code inspects ([String.prototype.trim]'s
      white space) lies in the BMP outside the surrogate range, so
      code points and UTF-16 code units give the same answers;
    - message ids are the decimal strings [Date.now().toString()]; the
      decimal rendering of a non-negative integer is injective, so an id
      is represented by the integer it renders. *)

From Stdlib Require Import ZArith List Bool String Ascii Lia.
Import ListNotations.
Open Scope Z_scope.

(** ** [TextDecoder] (WHATWG Encoding Standard, UTF-8 decoder, non-fatal)

    The decoder used by the hook is [new TextDecoder()] (UTF-8, BOM not
    ignored, errors replaced by U+FFFD) and is always called as
    [decoder.decode(value, { stream: true })]. *)
Module Utf8.

Record dec := mkDec {
  bytes_needed : Z;
  bytes_seen : Z;
  code_point : Z;
  lower_boundary : Z;
  upper_boundary : Z;
  bom_seen : bool
}.

(** A fresh [TextDecoder]. *)
Definition dec_init : dec := mkDec 0 0 0 128 191 false.

Definition replacement : Z := 65533.

(** Serialize I/O queue: the first scalar value is dropped when it is
    U+FEFF (byte order mark), and the BOM-seen flag is then set. *)
Definition emit (d : dec) (c : Z) : dec * list Z :=
  if bom_seen d then (d, [c])
  else (mkDec (bytes_needed d) (bytes_seen d) (code_point d)
              (lower_boundary d) (upper_boundary d) true,
        if c =? 65279 then [] else [c]).

(** Decoder handler, case "UTF-8 bytes needed is 0". *)
Definition step_lead (d : dec) (b : Z) : dec * list Z :=
  if (0 <=? b) && (b <=? 127) then emit d b
  else if (194 <=? b) && (b <=? 223) then
    (mkDec 1 (bytes_seen d) (Z.land b 31) (lower_boundary d)
           (upper_boundary d) (bom_seen d), [])
  else if (224 <=? b) && (b <=? 239) then
    (mkDec 2 (bytes_seen d) (Z.land b 15)
           (if b =? 224 then 160 else lower_boundary d)
           (if b =? 237 then 159 else upper_boundary d) (bom_seen d), [])
  else if (240 <=? b) && (b <=? 244) then
    (mkDec 3 (bytes_seen d) (Z.land b 7)
           (if b =? 240 then 144 else lower_boundary d)
           (if b =? 244 then 143 else upper_boundary d) (bom_seen d), [])
  else emit d replacement.

(** Decoder handler for one byte.  A byte outside the expected
    continuation range resets the decoder, yields an error (U+FFFD)
    and is "restored to the stream", i.e. processed again from the
    reset state. *)
Definition step (d : dec) (b : Z) : dec * list Z :=
  if bytes_needed d =? 0 then step_lead d b
  else if negb ((lower_boundary d <=? b) && (b <=? upper_boundary d)) then
    let d0 := mkDec 0 0 0 128 191 (bom_seen d) in
    let '(d1, o1) := emit d0 replacement in
    let '(d2, o2) := step_lead d1 b in
    (d2, o1 ++ o2)
  else
    let cp := Z.lor (Z.shiftl (code_point d) 6) (Z.land b 63) in
    let seen := bytes_seen d + 1 in
    if negb (seen =? bytes_needed d) then
      (mkDec (bytes_needed d) seen cp 128 191 (bom_seen d), [])
    else emit (mkDec 0 0 0 128 191 (bom_seen d)) cp.

(** [decoder.decode(bytes, { stream: true })]: the bytes are pushed to
    the I/O queue and processed until it is empty; no end-of-queue is
    processed, so an incomplete trailing sequence stays pending in the
    decoder state. *)
Fixpoint decode (d : dec) (bs : list Z) : dec * list Z :=
  match bs with
  | [] => (d, [])
  | b :: bs' =>
      let '(d1, o1) := step d b in
      let '(d2, o2) := decode d1 bs' in
      (d2, o1 ++ o2)
  end.

(** UTF-8 encoding of a scalar value (the bytes a server sends). *)
Definition encode (c : Z) : list Z :=
  if c <? 128 then [c]
  else if c <? 2048 then
    [Z.lor 192 (Z.shiftr c 6); Z.lor 128 (Z.land c 63)]
  else if c <? 65536 then
    [Z.lor 224 (Z.shiftr c 12); Z.lor 128 (Z.land (Z.shiftr c 6) 63);
     Z.lor 128 (Z.land c 63)]
  else
    [Z.lor 240 (Z.shiftr c 18); Z.lor 128 (Z.land (Z.shiftr c 12) 63);
     Z.lor 128 (Z.land (Z.shiftr c 6) 63); Z.lor 128 (Z.land c 63)].

End Utf8.

(** ** JavaScript string helpers *)
Module JS.

(** WhiteSpace and LineTerminator code points (ECMA-262), the set
    [String.prototype.trim] strips. *)
Definition is_ws (c : Z) : bool :=
  (c =? 9) || (c =? 10) || (c =? 11) || (c =? 12) || (c =? 13)
  || (c =? 32) || (c =? 160) || (c =? 5760)
  || ((8192 <=? c) && (c <=? 8202))
  || (c =? 8232) || (c =? 8233) || (c =? 8239) || (c =? 8287)
  || (c =? 12288) || (c =? 65279).

Fixpoint trim_start (s : list Z) : list Z :=
  match s with
  | [] => []
  | c :: s' => if is_ws c then trim_start s' else s
  end.

Definition trim (s : list Z) : list Z := rev (trim_start (rev (trim_start s))).

(** Truthiness of a string: non-empty. *)
Definition truthy (s : list Z) : bool :=
  match s with [] => false | _ => true end.

(** A string literal of the source, as code points. *)
Fixpoint of_string (s : string) : list Z :=
  match s with
  | EmptyString => []
  | String a s' => Z.of_nat (nat_of_ascii a) :: of_string s'
  end.

End JS.

(** ** The [useChatbot] hook of [src/Clotho/src/hooks/useChatbot.ts] *)
Module Chatbot.

Inductive msg_role := User | Assistant.

(** [ChatMessage]: [id] is the integer rendered by [toString()],
    [timestamp] the millisecond value of the [Date]. *)
Record ChatMessage := mkMsg {
  id : Z;
  role : msg_role;
  content : list Z;
  timestamp : Z
}.

(** React state of the hook. *)
Record hook := mkHook {
  messages : list ChatMessage;
  isLoading : bool;
  isStreaming : bool
}.

Definition apology : list Z :=
  JS.of_string "I apologize, but I encountered an error processing your request. Please try again or contact support if the issue persists.".

(** Where an invocation of [sendMessage] is suspended. *)
Inductive phase := Fetching | Reading | Finished.

(** Locals of one invocation of [sendMessage]: the awaited step, the
    [assistantMessageId] variable and the [TextDecoder]. *)
Record run := mkRun {
  ph : phase;
  assistantMessageId : option Z;
  decoder : Utf8.dec
}.

Definition set_messages (h : hook) (ms : list ChatMessage) : hook :=
  mkHook ms (isLoading h) (isStreaming h).

(** [prev.map(msg => msg.id === a ? { ...msg, content: f msg } : msg)] *)
Definition update_content (a : Z) (f : ChatMessage -> list Z)
    (ms : list ChatMessage) : list ChatMessage :=
  map (fun m => if id m =? a then mkMsg (id m) (role m) (f m) (timestamp m)
                else m) ms.

(** Lines 26-36: the guard, the user message and [setIsLoading(true)].
    [None] is the early [return]; otherwise the new state and the
    locals of the invocation, suspended on [fetch]. *)
Definition send (h : hook) (c : list Z) (now : Z) : option (hook * run) :=
  if negb (JS.truthy (JS.trim c)) || isLoading h then None
  else
    let userMessage := mkMsg now User (JS.trim c) now in
    Some (mkHook (messages h ++ [userMessage]) true (isStreaming h),
          mkRun Fetching None Utf8.dec_init).

(** [finally] block, lines 132-135. *)
Definition fin (h : hook) (r : run) : hook * run :=
  (mkHook (messages h) false false,
   mkRun Finished (assistantMessageId r) (decoder r)).

(** [catch] block, lines 103-131, followed by [finally]. *)
Definition on_catch (h : hook) (r : run) (now : Z) : hook * run :=
  match assistantMessageId r with
  | None =>
      let errorMessage := mkMsg (now + 1) Assistant apology now in
      fin (set_messages h (messages h ++ [errorMessage])) r
  | Some a =>
      fin (set_messages h (update_content a (fun _ => apology) (messages h))) r
  end.

(** [fetch] resolved with a response: lines 56-66. *)
Definition on_response (h : hook) (r : run) (status : Z) (has_body : bool)
    (now : Z) : hook * run :=
  let ok := (200 <=? status) && (status <=? 299) in
  if negb ok then on_catch h r now
  else if negb has_body then on_catch h r now
  else (h, mkRun Reading (assistantMessageId r) (decoder r)).

(** One [reader.read()] returning [{ done: false, value }]: lines 74-101. *)
Definition on_chunk (h : hook) (r : run) (value : list Z) (now : Z)
    : hook * run :=
  let '(d', chunk) := Utf8.decode (decoder r) value in
  if JS.truthy chunk && JS.truthy (JS.trim chunk) then
    match assistantMessageId r with
    | None =>
        let a := now + 1 in
        let assistantMessage := mkMsg a Assistant chunk now in
        (mkHook (messages h ++ [assistantMessage]) false true,
         mkRun (ph r) (Some a) d')
    | Some a =>
        (set_messages h (update_content a (fun m => content m ++ chunk)
                                        (messages h)),
         mkRun (ph r) (Some a) d')
    end
  else (h, mkRun (ph r) (assistantMessageId r) d').

(** [reader.read()] returning [{ done: true }]: [break], then [finally]. *)
Definition on_end (h : hook) (r : run) : hook * run := fin h r.

(** Successive reads of the chunks [(value, Date.now())]. *)
Fixpoint feed (h : hook) (r : run) (cs : list (list Z * Z)) : hook * run :=
  match cs with
  | [] => (h, r)
  | (v, t) :: cs' => let '(h1, r1) := on_chunk h r v t in feed h1 r1 cs'
  end.

(** How the awaited [fetch] settles. *)
Inductive fetch_outcome :=
  | FetchReject (now : Z)
  | Response (status : Z) (has_body : bool) (now : Z).

(** How the read loop leaves after the chunks: end of stream, or a
    rejected [reader.read()]. *)
Inductive read_end :=
  | StreamEnd
  | ReadReject (now : Z).

(** One invocation of [sendMessage] run to completion without
    interleaving. *)
Definition send_run (h : hook) (c : list Z) (now : Z) (o : fetch_outcome)
    (cs : list (list Z * Z)) (e : read_end) : hook :=
  match send h c now with
  | None => h
  | Some (h1, r1) =>
      match o with
      | FetchReject t => fst (on_catch h1 r1 t)
      | Response st body t =>
          let '(h2, r2) := on_response h1 r1 st body t in
          match ph r2 with
          | Reading =>
              let '(h3, r3) := feed h2 r2 cs in
              match e with
              | StreamEnd => fst (on_end h3 r3)
              | ReadReject t' => fst (on_catch h3 r3 t')
              end
          | _ => h2
          end
      end
  end.

End Chatbot.

(** ** Interleaved invocations

    [isLoading] is cleared as soon as the first content arrives
    (line 90), so a new [sendMessage] can start while an earlier one is
    still reading.  The world keeps every invocation's locals; each
    environment event resumes one invocation at its [await]. *)
Module World.
Import Chatbot.

Record world := mkWorld {
  hk : hook;
  runs : list run
}.

Inductive event :=
  | ESend (c : list Z) (now : Z)
  | EFetchReject (r : nat) (now : Z)
  | EResponse (r : nat) (status : Z) (has_body : bool) (now : Z)
  | EChunk (r : nat) (value : list Z) (now : Z)
  | EReadReject (r : nat) (now : Z)
  | EEnd (r : nat).

Fixpoint replace_nth {A} (n : nat) (x : A) (l : list A) : list A :=
  match l, n with
  | [], _ => []
  | _ :: l', O => x :: l'
  | y :: l', S n' => y :: replace_nth n' x l'
  end.

Definition resume (w : world) (r : nat) (expected : phase)
    (k : hook -> run -> hook * run) : world :=
  match nth_error (runs w) r with
  | Some ru =>
      if match ph ru, expected with
         | Fetching, Fetching | Reading, Reading => true
         | _, _ => false
         end
      then let '(h', ru') := k (hk w) ru in mkWorld h' (replace_nth r ru' (runs w))
      else w
  | None => w
  end.

Definition step (w : world) (e : event) : world :=
  match e with
  | ESend c now =>
      match send (hk w) c now with
      | None => w
      | Some (h', ru) => mkWorld h' (runs w ++ [ru])
      end
  | EFetchReject r now => resume w r Fetching (fun h ru => on_catch h ru now)
  | EResponse r st body now =>
      resume w r Fetching (fun h ru => on_response h ru st body now)
  | EChunk r v now => resume w r Reading (fun h ru => on_chunk h ru v now)
  | EReadReject r now => resume w r Reading (fun h ru => on_catch h ru now)
  | EEnd r => resume w r Reading on_end
  end.

Definition steps (w : world) (es : list event) : world := fold_left step es w.

(** Initial state of the hook: the greeting with id ["1"]. *)
Definition greeting : ChatMessage :=
  mkMsg 1 Assistant (JS.of_string "Hello! How can I assist you today?") 0.

Definition w0 : world := mkWorld (mkHook [greeting] false false) [].

End World.

(** ** The older [useChatbot] of [src/unnamed/part_000]

    A non-streaming variant: the whole answer comes from
    [BedrockService.sendMessage]. *)
Module Bedrock.

Record hook := mkHook {
  messages : list Chatbot.ChatMessage;
  isLoading : bool
}.

(** Outcome of [await bedrockService.sendMessage(...)]. *)
Inductive outcome := Answer (response : list Z) | Failure.

(** Lines 22-66, run to completion. *)
Definition sendMessage (h : hook) (c : list Z) (now : Z) (o : outcome)
    : hook :=
  if negb (JS.truthy (JS.trim c)) || isLoading h then h
  else
    let userMessage := Chatbot.mkMsg now Chatbot.User (JS.trim c) now in
    let ms := messages h ++ [userMessage] in
    match o with
    | Answer resp =>
        mkHook (ms ++ [Chatbot.mkMsg (now + 1) Chatbot.Assistant resp now]) false
    | Failure =>
        mkHook (ms ++ [Chatbot.mkMsg (now + 1) Chatbot.Assistant
                                     Chatbot.apology now]) false
    end.

End Bedrock.

(** ** Auxiliary notions used to state the properties *)
Module Aux.
Import Chatbot.

(** The decoded text of every chunk of a read loop. *)
Fixpoint pieces (d : Utf8.dec) (cs : list (list Z * Z)) : list (list Z) :=
  match cs with
  | [] => []
  | (v, _) :: cs' => let '(d', o) := Utf8.decode d v in o :: pieces d' cs'
  end.

(** A string holding a character other than white space. *)
Definition has_text (s : list Z) : bool := existsb (fun c => negb (JS.is_ws c)) s.

(** Content of the message the invocation streams into, if any. *)
Definition final_content (hr : hook * run) : option (list Z) :=
  match assistantMessageId (snd hr) with
  | None => None
  | Some a =>
      match find (fun m => id m =? a) (messages (fst hr)) with
      | Some m => Some (content m)
      | None => None
      end
  end.

(** The message the invocation streams into, as it stands. *)
Definition streamed_message (hr : hook * run) : option ChatMessage :=
  match assistantMessageId (snd hr) with
  | None => None
  | Some a => find (fun m => id m =? a) (messages (fst hr))
  end.

(** Transport errors: [fetch] rejected, non-2xx status, no body, or a
    rejected [reader.read()]. *)
Definition transport_error (o : fetch_outcome) (e : read_end) : bool :=
  match o with
  | FetchReject _ => true
  | Response st body _ =>
      negb ((200 <=? st) && (st <=? 299) && body)
      || match e with ReadReject _ => true | StreamEnd => false end
  end.

(** Every clock reading of the invocation is at least [t0]. *)
Definition times_after (t0 : Z) (o : fetch_outcome) (cs : list (list Z * Z))
    (e : read_end) : Prop :=
  match o with FetchReject t | Response _ _ t => t0 <= t end
  /\ Forall (fun vt => t0 <= snd vt) cs
  /\ match e with ReadReject t => t0 <= t | StreamEnd => True end.

(** The assistant message on screen when the read loop fails. *)
Definition message_at_error (h : hook) (c : list Z) (t0 : Z)
    (o : fetch_outcome) (cs : list (list Z * Z)) : option ChatMessage :=
  match send h c t0, o with
  | Some (h1, r1), Response st body t =>
      let '(h2, r2) := on_response h1 r1 st body t in
      match ph r2 with
      | Reading => streamed_message (feed h2 r2 cs)
      | _ => None
      end
  | _, _ => None
  end.

(** A fresh invocation whose response was accepted. *)
Definition fresh_run : run := mkRun Reading None Utf8.dec_init.

End Aux.

(** ** Clearing the chat, and the [Chatbot] component that drives the hook

    [clearChat] (lines 140-150 of [useChatbot.ts]) replaces the log by a
    fresh greeting and asks the [AnalysisProvider] for a new
    conversation id ([resetConversationId], a fresh [uuidv4()], given
    here as [uuid]).  Invocations still in flight keep running.  The
    component of [src/unnamed/part_015] holds the text box and calls
    [sendMessage] from [handleSendMessage] (lines 29-36). *)
Module ChatSession.
Import Chatbot World.

Record session := mkSession {
  world : World.world;
  conversationId : Z
}.

Definition clearChat (s : session) (now uuid : Z) : session :=
  mkSession
    (mkWorld (set_messages (hk (world s))
                [mkMsg 1 Assistant (JS.of_string "Hello! How can I assist you today?") now])
             (runs (world s)))
    uuid.

(** Events that resume an invocation already started (not a new
    [sendMessage]). *)
Definition is_send (e : event) : bool :=
  match e with ESend _ _ => true | _ => false end.

Record ui := mkUi {
  input : list Z;
  session_of : session
}.

(** [handleSendMessage]: same guard as the hook, [setInput('')], then
    [sendMessage(input.trim())]. *)
Definition handleSendMessage (u : ui) (now : Z) : ui :=
  if negb (JS.truthy (JS.trim (input u))) || isLoading (hk (world (session_of u)))
  then u
  else
    let messageContent := JS.trim (input u) in
    mkUi [] (mkSession (step (world (session_of u)) (ESend messageContent now))
                       (conversationId (session_of u))).

End ChatSession.

(** ** [useAnalysis] of [useChatbot.ts] (lines 161-280) and what it calls

    [analyzeCsvs] of [src/Clotho/src/lib/api.ts] and [handleApiError],
    [handleApiSuccess], [showToast] of [src/Clotho/src/lib/toast.ts].
    The toast library ([sonner]) is observed through the calls the code
    makes: each shown toast gets the next value of a counter as its id
    (as [sonner]'s [toastsCounter]), and [toast.dismiss(id)] is
    recorded.  Styles are left out: they do not reach the state. *)
Module Analysis.

(** *** Strings *)

Definition is_digit (c : Z) : bool := (48 <=? c) && (c <=? 57).

(** Decimal rendering of an integer ([String(n)] / template literal). *)
Fixpoint digits_aux (fuel : nat) (n : Z) (acc : list Z) : list Z :=
  match fuel with
  | O => acc
  | S f =>
      let acc' := (48 + n mod 10) :: acc in
      if n <? 10 then acc' else digits_aux f (n / 10) acc'
  end.

Definition num_to_string (n : Z) : list Z :=
  if n <? 0 then 45 :: digits_aux (S (Z.to_nat (- n))) (- n) []
  else digits_aux (S (Z.to_nat n)) n [].

(** [parseInt] of a string of decimal digits. *)
Definition parse_int_digits (ds : list Z) : Z :=
  fold_left (fun acc d => acc * 10 + (d - 48)) ds 0.

(** [s.match(/(\d{3})/)]: the first run of three ASCII digits. *)
Fixpoint match3 (s : list Z) : option (list Z) :=
  match s with
  | a :: ((b :: c :: _) as t) =>
      if is_digit a && is_digit b && is_digit c then Some [a; b; c] else match3 t
  | _ => None
  end.

Fixpoint prefixb (p s : list Z) : bool :=
  match p, s with
  | [], _ => true
  | x :: p', y :: s' => (x =? y) && prefixb p' s'
  | _ :: _, [] => false
  end.

(** [s.includes(p)]. *)
Fixpoint includes (s p : list Z) : bool :=
  prefixb p s || match s with [] => false | _ :: s' => includes s' p end.

(** [arr.join(sep)]. *)
Fixpoint join (sep : list Z) (l : list (list Z)) : list Z :=
  match l with
  | [] => []
  | [x] => x
  | x :: l' => x ++ sep ++ join sep l'
  end.

Fixpoint list_eqb (a b : list Z) : bool :=
  match a, b with
  | [], [] => true
  | x :: a', y :: b' => (x =? y) && list_eqb a' b'
  | _, _ => false
  end.

(** *** [analyzeCsvs] *)

(** A value read from a parsed JSON body: a string, or any other JSON
    value by its truthiness and its [String()] rendering. *)
Inductive jsval := JString (s : list Z) | JOther (truthy : bool) (rendered : list Z).

Definition jtruthy (v : jsval) : bool :=
  match v with JString s => JS.truthy s | JOther b _ => b end.

Definition jrender (v : jsval) : list Z :=
  match v with JString s => s | JOther _ r => r end.

(** [a || b] where [a] is a property read that may be [undefined]. *)
Definition js_or (a : option jsval) (b : jsval) : jsval :=
  match a with Some v => if jtruthy v then v else b | None => b end.

(** The properties of the parsed error body the code reads. *)
Record json_obj := mkObj {
  f_message : option jsval;
  f_error : option jsval;
  f_details : option jsval;
  f_description : option jsval
}.

(** [JSON.parse(errorText)]: throws, returns [null] (reading a property
    of it then throws), or returns another value. *)
Inductive json_parse := NotJson | JsonNull | JsonValue (o : json_obj).

(** [await res.text()]. *)
Inductive text_result := TextFails | TextOk (text : list Z) (parsed : json_parse).

(** The parsed analysis: [null], or a value whose [risk_alerts] is
    absent or an array of alerts (by their [alert_type]). *)
Inductive adata := ANull | AObj (risk_alerts : option (list (list Z))).

(** [await res.json()]: a value, or a rejection (its class being a
    [TypeError] or not, and its message). *)
Inductive json_result :=
  | JsonOk (data : adata)
  | JsonFails (type_error : bool) (message : list Z).

(** How [fetch] settles: a rejection, or a response with its status,
    its status text and its body as the code would read it. *)
Inductive fetch_result :=
  | FetchFails (type_error : bool) (message : list Z)
  | Resp (status : Z) (statusText : list Z) (text : text_result) (json : json_result).

Record api_error := mkErr {
  message : list Z;
  err_status : option Z;
  err_statusText : option (list Z);
  err_details : option jsval
}.

Inductive api_result := Ok (data : adata) | Err (e : api_error).

(** The outer [catch] of [analyzeCsvs]. *)
Definition catch_fetch (type_error : bool) (m : list Z) : api_error :=
  if type_error && includes m (JS.of_string "fetch")
  then mkErr (JS.of_string "Network error - please check your connection") (Some 0) None None
  else mkErr m None None None.

Definition analyzeCsvs (fr : fetch_result) : api_result :=
  match fr with
  | FetchFails te m => Err (catch_fetch te m)
  | Resp st stext txt js =>
      if (200 <=? st) && (st <=? 299) then
        match js with
        | JsonOk d => Ok d
        | JsonFails te m => Err (catch_fetch te m)
        end
      else
        let errorMessage0 := JString (JS.of_string "HTTP " ++ num_to_string st) in
        let details0 := JString [] in
        let '(errorMessage, details) :=
          match txt with
          | TextFails =>
              (JString (JS.of_string "HTTP " ++ num_to_string st ++ [32] ++ stext), details0)
          | TextOk t p =>
              if JS.truthy t then
                match p with
                | JsonValue o =>
                    (js_or (f_message o) (js_or (f_error o) errorMessage0),
                     js_or (f_details o) (js_or (f_description o) (JString [])))
                | JsonNull | NotJson => (js_or (Some (JString t)) errorMessage0, details0)
                end
              else (errorMessage0, details0)
          end in
        Err (mkErr (jrender errorMessage) (Some st) (Some stext) (Some details))
  end.

(** *** Toasts *)

Inductive toast_kind := TSuccess | TError | TWarning | TInfo | TLoading.

Inductive toast_call :=
  | Show (tid : Z) (kind : toast_kind) (title : list Z)
         (description : option (list Z)) (duration : option Z)
  | Dismiss (tid : Z).

(** State of [useAnalysis]: the context's [analysisData], [isAnalyzing]
    and [conversationId], the hook's [error], and the toasts. *)
Record astate := mkA {
  analysisData : adata;
  isAnalyzing : bool;
  conversationId : Z;
  error : option (list Z);
  toasts : list toast_call;
  toast_counter : Z
}.

Definition set_error (s : astate) (e : option (list Z)) : astate :=
  mkA (analysisData s) (isAnalyzing s) (conversationId s) e (toasts s) (toast_counter s).

Definition set_isAnalyzing (s : astate) (b : bool) : astate :=
  mkA (analysisData s) b (conversationId s) (error s) (toasts s) (toast_counter s).

Definition set_analysisData (s : astate) (d : adata) : astate :=
  mkA d (isAnalyzing s) (conversationId s) (error s) (toasts s) (toast_counter s).

Definition resetConversationId (s : astate) (uuid : Z) : astate :=
  mkA (analysisData s) (isAnalyzing s) uuid (error s) (toasts s) (toast_counter s).

Definition show (s : astate) (k : toast_kind) (title : list Z)
    (description : option (list Z)) (duration : option Z) : astate * Z :=
  (mkA (analysisData s) (isAnalyzing s) (conversationId s) (error s)
       (toasts s ++ [Show (toast_counter s) k title description duration])
       (toast_counter s + 1),
   toast_counter s).

Definition dismiss (s : astate) (t : Z) : astate :=
  mkA (analysisData s) (isAnalyzing s) (conversationId s) (error s)
      (toasts s ++ [Dismiss t]) (toast_counter s).

(** [options?.duration || default]. *)
Definition duration_or (d : option Z) (default : Z) : Z :=
  match d with Some n => if n =? 0 then default else n | None => default end.

Definition showToast_success s m (description : option (list Z)) (duration : option Z) :=
  show s TSuccess m description (Some (duration_or duration 4000)).
Definition showToast_error s m (description : option (list Z)) (duration : option Z) :=
  show s TError m description (Some (duration_or duration 6000)).
Definition showToast_warning s m (description : option (list Z)) (duration : option Z) :=
  show s TWarning m description (Some (duration_or duration 5000)).
Definition showToast_loading s m := show s TLoading m None None.

(** [HTTP_ERROR_MESSAGES[status]]. *)
Definition HTTP_ERROR_MESSAGES (n : Z) : option (list Z) :=
  if n =? 400 then Some (JS.of_string "Bad Request - Please check your input data")
  else if n =? 401 then Some (JS.of_string "Unauthorized - Please check your credentials")
  else if n =? 403 then Some (JS.of_string "Forbidden - You don't have permission to perform this action")
  else if n =? 404 then Some (JS.of_string "Not Found - The requested resource was not found")
  else if n =? 408 then Some (JS.of_string "Request Timeout - The server took too long to respond")
  else if n =? 413 then Some (JS.of_string "File Too Large - One or more files exceed the size limit")
  else if n =? 415 then Some (JS.of_string "Unsupported File Type - Please upload CSV files only")
  else if n =? 422 then Some (JS.of_string "Invalid Data - Please check your CSV file format")
  else if n =? 429 then Some (JS.of_string "Too Many Requests - Please wait before trying again")
  else if n =? 500 then Some (JS.of_string "Internal Server Error - Something went wrong on our end")
  else if n =? 502 then Some (JS.of_string "Bad Gateway - Service temporarily unavailable")
  else if n =? 503 then Some (JS.of_string "Service Unavailable - Please try again later")
  else if n =? 504 then Some (JS.of_string "Gateway Timeout - The service is taking too long to respond")
  else None.

(** Title and description [handleApiError] computes for an [Error]
    (every error reaching it from [analyze] is one). *)
Definition api_error_toast (msg : list Z) (context : list Z) : list Z * list Z :=
  match match3 msg with
  | Some ds =>
      let status := parse_int_digits ds in
      (match HTTP_ERROR_MESSAGES status with
       | Some t => t
       | None => JS.of_string "HTTP " ++ num_to_string status ++ JS.of_string " Error"
       end,
       if JS.truthy context then JS.of_string "Failed to " ++ context else [])
  | None =>
      (if JS.truthy msg then msg else JS.of_string "Something went wrong",
       if JS.truthy context then JS.of_string "Error during " ++ context else [])
  end.

Definition handleApiError (s : astate) (e : api_error) (context : list Z) : astate :=
  let '(title, description) := api_error_toast (message e) context in
  fst (showToast_error s title (Some description) None).

Definition handleApiSuccess (s : astate) (m : list Z) (context : list Z) : astate :=
  fst (showToast_success s m
         (if JS.truthy context then Some (JS.of_string "Successfully " ++ context) else None)
         None).

(** *** [analyze] *)

Record files := mkFiles {
  sales : option Z;
  inventory : option Z;
  materials : option Z;
  bom : option Z
}.

Definition present (f : option Z) : bool := match f with Some _ => true | None => false end.

Definition ctx : list Z := JS.of_string "analyze your data".

(** Lines 186-206: validation, then [setIsAnalyzing(true)],
    [setError(null)] and the loading toast, whose id is returned when
    the request is sent. *)
Definition analyze_begin (s : astate) (f : files) : astate * option Z :=
  let m0 : list (list Z) := [] in
  let m1 := if present (sales f) then m0 else m0 ++ [JS.of_string "Sales history"] in
  let m2 := if present (inventory f) then m1 else m1 ++ [JS.of_string "Inventory"] in
  let m3 := if present (materials f) then m2 else m2 ++ [JS.of_string "Raw materials"] in
  let missingFiles := if present (bom f) then m3 else m3 ++ [JS.of_string "Bill of materials"] in
  if 0 <? Z.of_nat (List.length missingFiles) then
    let errorMsg := JS.of_string "Please select all required files: "
                    ++ join (JS.of_string ", ") missingFiles in
    let s1 := set_error s (Some errorMsg) in
    (fst (showToast_warning s1 (JS.of_string "Missing Files") (Some errorMsg) (Some 5000)),
     None)
  else
    let s1 := set_error (set_isAnalyzing s true) None in
    let '(s2, loadingToast) := showToast_loading s1 (JS.of_string "Analyzing your data...") in
    (s2, Some loadingToast).

(** The [catch] block, lines 242-260. *)
Definition analyze_catch (s : astate) (loadingToast : Z) (e : api_error) : astate :=
  let s1 := dismiss s loadingToast in
  let errorMessage0 := JS.of_string "Failed to analyze files" in
  match err_status e with
  | Some 0 =>
      let s2 := set_error s1 (Some (JS.of_string "Network connection failed")) in
      handleApiError s2 e ctx
  | Some n =>
      if n >=? 400 then set_error (handleApiError s1 e ctx) (Some (message e))
      else
        let s2 := set_error s1 (Some (if JS.truthy (message e) then message e else errorMessage0)) in
        handleApiError s2 e ctx
  | None =>
      let s2 := set_error s1 (Some (if JS.truthy (message e) then message e else errorMessage0)) in
      handleApiError s2 e ctx
  end.

(** V8's message for [data.risk_alerts] when [data] is [null]. *)
Definition null_read_message : list Z :=
  JS.of_string "Cannot read properties of null (reading 'risk_alerts')".

Definition is_high_risk (t : list Z) : bool :=
  list_eqb t (JS.of_string "expiry") || list_eqb t (JS.of_string "stockout").

(** Lines 211-263 after the request settled with [o], then [finally]. *)
Definition analyze_end (s : astate) (loadingToast : Z) (o : api_result) (uuid : Z) : astate :=
  let s' :=
    match o with
    | Err e => analyze_catch s loadingToast e
    | Ok data =>
        let s1 := resetConversationId (set_analysisData s data) uuid in
        let s2 := dismiss s1 loadingToast in
        let s3 := handleApiSuccess s2 (JS.of_string "Analysis completed successfully!") ctx in
        match data with
        | ANull => analyze_catch s3 loadingToast (mkErr null_read_message None None None)
        | AObj None => s3
        | AObj (Some ra) =>
            if 0 <? Z.of_nat (List.length ra) then
              let highRisks := filter is_high_risk ra in
              if 0 <? Z.of_nat (List.length highRisks) then
                fst (showToast_warning s3 (JS.of_string "High Risk Alerts Detected")
                       (Some (JS.of_string "Found " ++ num_to_string (Z.of_nat (List.length highRisks))
                              ++ JS.of_string " high priority risk(s) in your analysis"))
                       (Some 8000))
              else s3
            else s3
        end
    end in
  set_isAnalyzing s' false.

Definition analyze (s : astate) (f : files) (fr : fetch_result) (uuid : Z) : astate :=
  let '(s1, o) := analyze_begin s f in
  match o with
  | None => s1
  | Some loadingToast => analyze_end s1 loadingToast (analyzeCsvs fr) uuid
  end.

(** The names of the missing files, in the order the code checks them. *)
Definition missing_names (f : files) : list (list Z) :=
  map snd (filter (fun p => negb (present (fst p)))
    [(sales f, JS.of_string "Sales history"); (inventory f, JS.of_string "Inventory");
     (materials f, JS.of_string "Raw materials"); (bom f, JS.of_string "Bill of materials")]).

(** The error [analyze] reports for a failed request. *)
Definition reported_error (e : api_error) : list Z :=
  match err_status e with
  | Some 0 => JS.of_string "Network connection failed"
  | Some n => if n >=? 400 then message e
              else if JS.truthy (message e) then message e
              else JS.of_string "Failed to analyze files"
  | None => if JS.truthy (message e) then message e
            else JS.of_string "Failed to analyze files"
  end.

Definition count_high (ra : option (list (list Z))) : nat :=
  match ra with Some l => List.length (filter is_high_risk l) | None => O end.

End Analysis.

(** ** Arithmetic of the decoder *)
Module Utf8Facts.
Import Utf8.

Ltac zcase :=
  repeat match goal with
  | |- context [Z.leb ?a ?b] => destruct (Z.leb_spec a b); try lia
  | |- context [Z.ltb ?a ?b] => destruct (Z.ltb_spec a b); try lia
  | |- context [Z.eqb ?a ?b] => destruct (Z.eqb_spec a b); try lia
  end; simpl.

Lemma lor_low a n q :
  0 <= n -> 0 <= q < 2 ^ n -> Z.lor (a * 2 ^ n) q = a * 2 ^ n + q.
Proof.
  intros Hn Hq.
  assert (H0 : Z.land (a * 2 ^ n) q = 0).
  { apply Z.bits_inj'; intros i Hi.
    rewrite Z.land_spec, Z.bits_0.
    destruct (Z.lt_ge_cases i n) as [Hl|Hg].
    - rewrite Z.mul_pow2_bits_low by exact Hl; reflexivity.
    - rewrite <- (Z.mod_small q (2 ^ n)) by lia.
      rewrite Z.mod_pow2_bits_high by lia; apply andb_false_r. }
  rewrite <- Z.lxor_lor by exact H0.
  symmetry; apply Z.add_nocarry_lxor; exact H0.
Qed.

Lemma land_low a n m : m = Z.ones n -> 0 <= n -> Z.land a m = a mod 2 ^ n.
Proof. intros -> Hn; apply Z.land_ones; exact Hn. Qed.

Lemma step_lead2 d b :
  bytes_needed d = 0 -> 194 <= b <= 223 ->
  step d b = (mkDec 1 (bytes_seen d) (b - 192) (lower_boundary d)
                    (upper_boundary d) (bom_seen d), []).
Proof.
  intros Hn Hb; unfold step, step_lead; rewrite Hn.
  rewrite (land_low b 5 31) by (reflexivity || lia).
  replace (b mod 2 ^ 5) with (b - 192) by (Z.div_mod_to_equations; lia).
  simpl (0 =? 0); cbv iota.
  destruct (Z.leb_spec 0 b); [|lia]; destruct (Z.leb_spec b 127); [lia|].
  destruct (Z.leb_spec 194 b); [|lia]; destruct (Z.leb_spec b 223); [|lia].
  reflexivity.
Qed.

Lemma step_lead3 d b :
  bytes_needed d = 0 -> 224 <= b <= 239 ->
  step d b = (mkDec 2 (bytes_seen d) (b - 224)
                    (if b =? 224 then 160 else lower_boundary d)
                    (if b =? 237 then 159 else upper_boundary d)
                    (bom_seen d), []).
Proof.
  intros Hn Hb; unfold step, step_lead; rewrite Hn.
  rewrite (land_low b 4 15) by (reflexivity || lia).
  replace (b mod 2 ^ 4) with (b - 224) by (Z.div_mod_to_equations; lia).
  simpl (0 =? 0); cbv iota.
  destruct (Z.leb_spec 0 b); [|lia]; destruct (Z.leb_spec b 127); [lia|].
  destruct (Z.leb_spec 194 b); [|lia]; destruct (Z.leb_spec b 223); [lia|].
  destruct (Z.leb_spec 224 b); [|lia]; destruct (Z.leb_spec b 239); [|lia].
  reflexivity.
Qed.

Lemma step_lead4 d b :
  bytes_needed d = 0 -> 240 <= b <= 244 ->
  step d b = (mkDec 3 (bytes_seen d) (b - 240)
                    (if b =? 240 then 144 else lower_boundary d)
                    (if b =? 244 then 143 else upper_boundary d)
                    (bom_seen d), []).
Proof.
  intros Hn Hb; unfold step, step_lead; rewrite Hn.
  rewrite (land_low b 3 7) by (reflexivity || lia).
  replace (b mod 2 ^ 3) with (b - 240) by (Z.div_mod_to_equations; lia).
  simpl (0 =? 0); cbv iota.
  destruct (Z.leb_spec 0 b); [|lia]; destruct (Z.leb_spec b 127); [lia|].
  destruct (Z.leb_spec 194 b); [|lia]; destruct (Z.leb_spec b 223); [lia|].
  destruct (Z.leb_spec 224 b); [|lia]; destruct (Z.leb_spec b 239); [lia|].
  destruct (Z.leb_spec 240 b); [|lia]; destruct (Z.leb_spec b 244); [|lia].
  reflexivity.
Qed.

Lemma step_cont_mid d b :
  bytes_needed d <> 0 -> lower_boundary d <= b <= upper_boundary d ->
  128 <= b <= 191 -> 0 <= code_point d -> bytes_seen d + 1 <> bytes_needed d ->
  step d b = (mkDec (bytes_needed d) (bytes_seen d + 1)
                    (code_point d * 64 + (b - 128)) 128 191 (bom_seen d), []).
Proof.
  intros Hn Hr Hb Hc Hs; unfold step.
  rewrite Z.shiftl_mul_pow2 by lia.
  rewrite (land_low b 6 63) by (reflexivity || lia).
  rewrite lor_low by (Z.div_mod_to_equations; lia).
  replace (b mod 2 ^ 6) with (b - 128) by (Z.div_mod_to_equations; lia).
  destruct (Z.eqb_spec (bytes_needed d) 0); [lia|].
  destruct (Z.leb_spec (lower_boundary d) b); [|lia].
  destruct (Z.leb_spec b (upper_boundary d)); [|lia].
  destruct (Z.eqb_spec (bytes_seen d + 1) (bytes_needed d)); [lia|].
  reflexivity.
Qed.

Lemma step_cont_last d b :
  bytes_needed d <> 0 -> lower_boundary d <= b <= upper_boundary d ->
  128 <= b <= 191 -> 0 <= code_point d -> bytes_seen d + 1 = bytes_needed d ->
  step d b = emit (mkDec 0 0 0 128 191 (bom_seen d)) (code_point d * 64 + (b - 128)).
Proof.
  intros Hn Hr Hb Hc Hs; unfold step.
  rewrite Z.shiftl_mul_pow2 by lia.
  rewrite (land_low b 6 63) by (reflexivity || lia).
  rewrite lor_low by (Z.div_mod_to_equations; lia).
  replace (b mod 2 ^ 6) with (b - 128) by (Z.div_mod_to_equations; lia).
  destruct (Z.eqb_spec (bytes_needed d) 0); [lia|].
  destruct (Z.leb_spec (lower_boundary d) b); [|lia].
  destruct (Z.leb_spec b (upper_boundary d)); [|lia].
  destruct (Z.eqb_spec (bytes_seen d + 1) (bytes_needed d)); [|lia].
  reflexivity.
Qed.

Lemma lor_lit p q n :
  0 <= n -> p mod 2 ^ n = 0 -> 0 <= q < 2 ^ n -> Z.lor p q = p + q.
Proof.
  intros Hn Hp Hq.
  assert (E : p = (p / 2 ^ n) * 2 ^ n).
  { rewrite Z.mul_comm; apply Z.div_exact; [lia|exact Hp]. }
  rewrite E; apply lor_low; assumption.
Qed.

Lemma encode2 c :
  128 <= c < 2048 -> encode c = [192 + c / 64; 128 + c mod 64].
Proof.
  intro Hc; unfold encode.
  destruct (Z.ltb_spec c 128); [lia|]; destruct (Z.ltb_spec c 2048); [|lia].
  rewrite Z.shiftr_div_pow2, (land_low c 6 63) by (reflexivity || lia).
  rewrite (lor_lit 192 _ 5), (lor_lit 128 _ 6)
    by (reflexivity || lia || (Z.div_mod_to_equations; lia)).
  reflexivity.
Qed.

Lemma encode3 c :
  2048 <= c < 65536 ->
  encode c = [224 + c / 4096; 128 + (c / 64) mod 64; 128 + c mod 64].
Proof.
  intro Hc; unfold encode.
  destruct (Z.ltb_spec c 128); [lia|]; destruct (Z.ltb_spec c 2048); [lia|].
  destruct (Z.ltb_spec c 65536); [|lia].
  rewrite !Z.shiftr_div_pow2, (land_low (c / 2 ^ 6) 6 63), (land_low c 6 63)
    by (reflexivity || lia).
  rewrite (lor_lit 224 _ 4), !(lor_lit 128 _ 6)
    by (reflexivity || lia || (Z.div_mod_to_equations; lia)).
  reflexivity.
Qed.

Lemma encode4 c :
  65536 <= c <= 1114111 ->
  encode c = [240 + c / 262144; 128 + (c / 4096) mod 64;
              128 + (c / 64) mod 64; 128 + c mod 64].
Proof.
  intro Hc; unfold encode.
  destruct (Z.ltb_spec c 128); [lia|]; destruct (Z.ltb_spec c 2048); [lia|].
  destruct (Z.ltb_spec c 65536); [lia|].
  rewrite !Z.shiftr_div_pow2, (land_low (c / 2 ^ 12) 6 63),
    (land_low (c / 2 ^ 6) 6 63), (land_low c 6 63) by (reflexivity || lia).
  rewrite (lor_lit 240 _ 3), !(lor_lit 128 _ 6)
    by (reflexivity || lia || (Z.div_mod_to_equations; lia)).
  reflexivity.
Qed.

Lemma decode_cons d b bs :
  decode d (b :: bs) =
  let '(d1, o1) := step d b in let '(d2, o2) := decode d1 bs in (d2, o1 ++ o2).
Proof. reflexivity. Qed.

Lemma emit_boundary (bom : bool) c :
  bom = true \/ c <> 65279 ->
  emit (mkDec 0 0 0 128 191 bom) c = (mkDec 0 0 0 128 191 true, [c]).
Proof.
  intro H; unfold emit; destruct bom; simpl; [reflexivity|].
  destruct (Z.eqb_spec c 65279); [destruct H; [discriminate|contradiction]|].
  reflexivity.
Qed.

(** States reached at a character boundary are reset states. *)
Definition at_rest (d : dec) : Prop :=
  bytes_needed d = 0 ->
  d = mkDec 0 0 0 128 191 (bom_seen d).

Lemma emit_at_rest d c : at_rest d -> at_rest (fst (emit d c)).
Proof.
  destruct d as [n se cp l u b]; unfold at_rest, emit; simpl; intro H.
  destruct b; simpl; intro Hn; specialize (H Hn); injection H; intros; subst;
    reflexivity.
Qed.

Lemma step_lead_at_rest d b : at_rest d -> at_rest (fst (step_lead d b)).
Proof.
  intro H; unfold step_lead.
  repeat match goal with
  | |- context [if ?c then _ else _] => destruct c
  end; try apply emit_at_rest; try exact H;
  unfold at_rest; simpl; discriminate.
Qed.

Lemma step_at_rest d b : at_rest d -> at_rest (fst (step d b)).
Proof.
  intro H; unfold step.
  destruct (Z.eqb_spec (bytes_needed d) 0) as [E|E];
    [apply step_lead_at_rest; exact H|].
  destruct (negb _).
  - destruct (emit (mkDec 0 0 0 128 191 (bom_seen d)) replacement) as [d1 o1] eqn:E1.
    assert (H1 : at_rest d1).
    { replace d1 with (fst (emit (mkDec 0 0 0 128 191 (bom_seen d)) replacement))
        by (rewrite E1; reflexivity).
      apply emit_at_rest; intro; reflexivity. }
    pose proof (step_lead_at_rest d1 b H1) as H2.
    destruct (step_lead d1 b); exact H2.
  - destruct (negb _).
    + unfold at_rest; simpl; intro Hn; contradiction.
    + apply emit_at_rest; intro; reflexivity.
Qed.

Lemma decode_at_rest d bs : at_rest d -> at_rest (fst (decode d bs)).
Proof.
  revert d; induction bs as [|b bs IH]; intros d H; [exact H|].
  rewrite decode_cons.
  pose proof (step_at_rest d b H) as H1.
  destruct (step d b) as [d1 o1]; simpl in H1.
  pose proof (IH d1 H1) as H2.
  destruct (decode d1 bs); exact H2.
Qed.

Ltac proj := cbn [bytes_needed bytes_seen code_point lower_boundary
                   upper_boundary bom_seen].

Ltac run_steps :=
  repeat (cbn [firstn skipn decode fst snd app];
          match goal with
          | S : step ?d ?b = _ |- context [step ?d ?b] => rewrite S
          end);
  cbn [decode fst snd app].

(** A character encoded in [n] bytes, fed in two pieces from a reset
    decoder, yields nothing for the first piece and exactly the
    character for the second. *)
Lemma split_char2 (bom : bool) c k :
  (bom = true \/ c <> 65279) -> 128 <= c < 2048 ->
  (0 < k < List.length (encode c))%nat ->
  let d := mkDec 0 0 0 128 191 bom in
  snd (decode d (firstn k (encode c))) = [] /\
  decode (fst (decode d (firstn k (encode c)))) (skipn k (encode c)) =
  (mkDec 0 0 0 128 191 true, [c]).
Proof.
  intros Hb Hc Hk d; subst d; rewrite encode2 in * by lia.
  set (x := c / 64) in *; set (z := c mod 64) in *.
  assert (E : c = x * 64 + z) by (subst x z; Z.div_mod_to_equations; lia).
  assert (Hx : 2 <= x <= 31) by (subst x; Z.div_mod_to_equations; lia).
  assert (Hz : 0 <= z < 64) by (subst z; Z.div_mod_to_equations; lia).
  clearbody x z.
  assert (S1 : step (mkDec 0 0 0 128 191 bom) (192 + x) =
               (mkDec 1 0 x 128 191 bom, [])).
  { rewrite step_lead2 by (proj; lia); proj.
    replace (192 + x - 192) with x by lia; reflexivity. }
  assert (S2 : step (mkDec 1 0 x 128 191 bom) (128 + z) =
               (mkDec 0 0 0 128 191 true, [c])).
  { rewrite step_cont_last by (proj; lia); proj.
    replace (x * 64 + (128 + z - 128)) with c by lia.
    apply emit_boundary; exact Hb. }
  simpl List.length in Hk.
  destruct k as [|[|k]]; [lia| |lia].
  run_steps; split; reflexivity.
Qed.

Lemma split_char3 (bom : bool) c k :
  (bom = true \/ c <> 65279) -> 2048 <= c < 65536 ->
  ~ (55296 <= c <= 57343) ->
  (0 < k < List.length (encode c))%nat ->
  let d := mkDec 0 0 0 128 191 bom in
  snd (decode d (firstn k (encode c))) = [] /\
  decode (fst (decode d (firstn k (encode c)))) (skipn k (encode c)) =
  (mkDec 0 0 0 128 191 true, [c]).
Proof.
  intros Hb Hc Hs Hk d; subst d; rewrite encode3 in * by lia.
  set (x := c / 4096) in *; set (y := (c / 64) mod 64) in *;
    set (z := c mod 64) in *.
  assert (E : c = x * 4096 + y * 64 + z)
    by (subst x y z; Z.div_mod_to_equations; lia).
  assert (Hx : 0 <= x <= 15) by (subst x; Z.div_mod_to_equations; lia).
  assert (Hy : 0 <= y < 64) by (subst y; Z.div_mod_to_equations; lia).
  assert (Hz : 0 <= z < 64) by (subst z; Z.div_mod_to_equations; lia).
  clearbody x y z.
  set (L := if x =? 0 then 160 else 128).
  set (U := if x =? 13 then 159 else 191).
  assert (S1 : step (mkDec 0 0 0 128 191 bom) (224 + x) =
               (mkDec 2 0 x L U bom, [])).
  { rewrite step_lead3 by (proj; lia); proj.
    replace (224 + x - 224) with x by lia.
    subst L U; destruct (Z.eqb_spec (224 + x) 224), (Z.eqb_spec x 0);
      try lia; destruct (Z.eqb_spec (224 + x) 237), (Z.eqb_spec x 13);
      try lia; reflexivity. }
  assert (S2 : step (mkDec 2 0 x L U bom) (128 + y) =
               (mkDec 2 1 (x * 64 + y) 128 191 bom, [])).
  { rewrite step_cont_mid; proj;
      [replace (x * 64 + (128 + y - 128)) with (x * 64 + y) by lia;
       reflexivity|lia| |lia|lia|lia].
    subst L U; destruct (Z.eqb_spec x 0), (Z.eqb_spec x 13); lia. }
  assert (S3 : step (mkDec 2 1 (x * 64 + y) 128 191 bom) (128 + z) =
               (mkDec 0 0 0 128 191 true, [c])).
  { rewrite step_cont_last by (proj; lia); proj.
    replace ((x * 64 + y) * 64 + (128 + z - 128)) with c by lia.
    apply emit_boundary; exact Hb. }
  simpl List.length in Hk.
  destruct k as [|[|[|k]]]; [lia| | |lia]; run_steps; split; reflexivity.
Qed.

Lemma split_char4 (bom : bool) c k :
  (bom = true \/ c <> 65279) -> 65536 <= c <= 1114111 ->
  (0 < k < List.length (encode c))%nat ->
  let d := mkDec 0 0 0 128 191 bom in
  snd (decode d (firstn k (encode c))) = [] /\
  decode (fst (decode d (firstn k (encode c)))) (skipn k (encode c)) =
  (mkDec 0 0 0 128 191 true, [c]).
Proof.
  intros Hb Hc Hk d; subst d; rewrite encode4 in * by lia.
  set (w := c / 262144) in *; set (x := (c / 4096) mod 64) in *;
    set (y := (c / 64) mod 64) in *; set (z := c mod 64) in *.
  assert (E : c = w * 262144 + x * 4096 + y * 64 + z)
    by (subst w x y z; Z.div_mod_to_equations; lia).
  assert (Hw : 0 <= w <= 4) by (subst w; Z.div_mod_to_equations; lia).
  assert (Hx : 0 <= x < 64) by (subst x; Z.div_mod_to_equations; lia).
  assert (Hy : 0 <= y < 64) by (subst y; Z.div_mod_to_equations; lia).
  assert (Hz : 0 <= z < 64) by (subst z; Z.div_mod_to_equations; lia).
  clearbody w x y z.
  set (L := if w =? 0 then 144 else 128).
  set (U := if w =? 4 then 143 else 191).
  assert (S1 : step (mkDec 0 0 0 128 191 bom) (240 + w) =
               (mkDec 3 0 w L U bom, [])).
  { rewrite step_lead4 by (proj; lia); proj.
    replace (240 + w - 240) with w by lia.
    subst L U; destruct (Z.eqb_spec (240 + w) 240), (Z.eqb_spec w 0);
      try lia; destruct (Z.eqb_spec (240 + w) 244), (Z.eqb_spec w 4);
      try lia; reflexivity. }
  assert (S2 : step (mkDec 3 0 w L U bom) (128 + x) =
               (mkDec 3 1 (w * 64 + x) 128 191 bom, [])).
  { rewrite step_cont_mid; proj;
      [replace (w * 64 + (128 + x - 128)) with (w * 64 + x) by lia;
       reflexivity|lia| |lia|lia|lia].
    subst L U; destruct (Z.eqb_spec w 0), (Z.eqb_spec w 4); lia. }
  assert (S3 : step (mkDec 3 1 (w * 64 + x) 128 191 bom) (128 + y) =
               (mkDec 3 2 ((w * 64 + x) * 64 + y) 128 191 bom, [])).
  { rewrite step_cont_mid by (proj; lia); proj.
    replace ((w * 64 + x) * 64 + (128 + y - 128)) with ((w * 64 + x) * 64 + y)
      by lia; reflexivity. }
  assert (S4 : step (mkDec 3 2 ((w * 64 + x) * 64 + y) 128 191 bom) (128 + z) =
               (mkDec 0 0 0 128 191 true, [c])).
  { rewrite step_cont_last by (proj; lia); proj.
    replace (((w * 64 + x) * 64 + y) * 64 + (128 + z - 128)) with c by lia.
    apply emit_boundary; exact Hb. }
  simpl List.length in Hk.
  destruct k as [|[|[|[|k]]]]; [lia| | | |lia]; run_steps; split; reflexivity.
Qed.

End Utf8Facts.

(** * Lemmas *)
Module Lemmas.
Import Chatbot Aux.

Lemma decode_app d xs ys :
  Utf8.decode d (xs ++ ys) =
  let '(d1, o1) := Utf8.decode d xs in
  let '(d2, o2) := Utf8.decode d1 ys in (d2, o1 ++ o2).
Proof.
  revert d; induction xs as [|b xs IH]; intro d; simpl.
  - destruct (Utf8.decode d ys); reflexivity.
  - destruct (Utf8.step d b) as [d1 o1].
    rewrite IH.
    destruct (Utf8.decode d1 xs) as [d2 o2].
    destruct (Utf8.decode d2 ys) as [d3 o3].
    rewrite app_assoc; reflexivity.
Qed.

Lemma trim_start_nil_iff s :
  JS.trim_start s = [] <-> forallb JS.is_ws s = true.
Proof.
  induction s as [|c s IH]; simpl; [tauto|].
  destruct (JS.is_ws c); simpl; [exact IH|split; discriminate].
Qed.

Lemma forallb_rev {A} (f : A -> bool) s : forallb f (rev s) = forallb f s.
Proof.
  induction s as [|x s IH]; simpl; [reflexivity|].
  rewrite forallb_app, IH; simpl.
  rewrite andb_true_r, andb_comm; reflexivity.
Qed.

Lemma forallb_trim_start s :
  forallb JS.is_ws (JS.trim_start s) = true -> JS.trim_start s = [].
Proof.
  induction s as [|c s IH]; simpl; [reflexivity|].
  case_eq (JS.is_ws c); intro Hc; [exact IH|].
  simpl; rewrite Hc; discriminate.
Qed.

Lemma trim_nil_iff s : JS.trim s = [] <-> forallb JS.is_ws s = true.
Proof.
  unfold JS.trim; split; intro H.
  - apply trim_start_nil_iff.
    apply forallb_trim_start.
    rewrite <- forallb_rev.
    apply trim_start_nil_iff.
    destruct (JS.trim_start (rev (JS.trim_start s))); [reflexivity|].
    simpl in H; destruct (rev l ++ [z]) eqn:E; [|discriminate].
    destruct (rev l); discriminate.
  - apply trim_start_nil_iff in H; rewrite H; reflexivity.
Qed.

Lemma has_text_forallb s : has_text s = negb (forallb JS.is_ws s).
Proof.
  induction s as [|c s IH]; simpl; [reflexivity|].
  rewrite IH, negb_andb; reflexivity.
Qed.

(** The test [chunk && chunk.trim()] of line 77. *)
Lemma is_content_has_text s :
  JS.truthy s && JS.truthy (JS.trim s) = has_text s.
Proof.
  rewrite has_text_forallb.
  destruct s as [|c s]; [reflexivity|]; simpl JS.truthy at 1; simpl andb.
  destruct (JS.trim (c :: s)) eqn:E.
  - apply trim_nil_iff in E; rewrite E; reflexivity.
  - case_eq (forallb JS.is_ws (c :: s)); intro F; [|reflexivity].
    apply trim_nil_iff in F; congruence.
Qed.

Lemma has_text_app s t : has_text (s ++ t) = has_text s || has_text t.
Proof. unfold has_text; apply existsb_app. Qed.

Lemma has_text_concat ps : has_text (List.concat ps) = existsb has_text ps.
Proof.
  induction ps as [|p ps IH]; simpl; [reflexivity|].
  rewrite has_text_app, IH; reflexivity.
Qed.

Lemma find_app {A} (f : A -> bool) l1 l2 :
  find f (l1 ++ l2) = match find f l1 with Some x => Some x | None => find f l2 end.
Proof.
  induction l1 as [|x l1 IH]; simpl; [reflexivity|].
  destruct (f x); [reflexivity|exact IH].
Qed.

Lemma find_none {A} (f : A -> bool) l :
  Forall (fun x => f x = false) l -> find f l = None.
Proof.
  induction 1 as [|x l Hx _ IH]; simpl; [reflexivity|]; rewrite Hx; exact IH.
Qed.

Lemma find_update a f ms :
  find (fun m => id m =? a) (update_content a f ms) =
  option_map (fun m => mkMsg (id m) (role m) (f m) (timestamp m))
             (find (fun m => id m =? a) ms).
Proof.
  induction ms as [|m ms IH]; simpl; [reflexivity|].
  case_eq (id m =? a); intro E; simpl; rewrite ?E; [reflexivity|exact IH].
Qed.

(** Once the invocation streams into message [a], each chunk holding
    text is appended to it. *)
Lemma feed_some h r cs a m :
  assistantMessageId r = Some a ->
  find (fun m => id m =? a) (messages h) = Some m ->
  final_content (feed h r cs) =
  Some (content m ++ List.concat (filter has_text (pieces (decoder r) cs))).
Proof.
  revert h r m; induction cs as [|[v t] cs IH]; intros h r m Ha Hf.
  - unfold final_content; simpl; rewrite Ha, Hf, app_nil_r; reflexivity.
  - simpl; unfold on_chunk.
    destruct (Utf8.decode (decoder r) v) as [d' o].
    rewrite is_content_has_text, Ha.
    destruct (has_text o) eqn:Ho; simpl.
    + rewrite (IH _ _ (mkMsg (id m) (role m) (content m ++ o) (timestamp m))).
      * rewrite Ho; simpl; rewrite <- app_assoc; reflexivity.
      * reflexivity.
      * simpl; rewrite find_update, Hf; reflexivity.
    + rewrite (IH _ _ m); [rewrite Ho; reflexivity|reflexivity|exact Hf].
Qed.

(** From a fresh invocation: the content of the streamed message is the
    concatenation of the decoded chunks that hold text. *)
Lemma feed_none h r cs t0 :
  assistantMessageId r = None ->
  Forall (fun m => id m <= t0) (messages h) ->
  Forall (fun vt => t0 <= snd vt) cs ->
  final_content (feed h r cs) =
  match filter has_text (pieces (decoder r) cs) with
  | [] => None
  | ps => Some (List.concat ps)
  end.
Proof.
  revert h r; induction cs as [|[v t] cs IH]; intros h r Ha Hid Ht.
  - unfold final_content; simpl; rewrite Ha; reflexivity.
  - inversion Ht as [|? ? Ht1 Ht2]; subst; simpl in Ht1.
    simpl; unfold on_chunk.
    destruct (Utf8.decode (decoder r) v) as [d' o].
    rewrite is_content_has_text, Ha.
    destruct (has_text o) eqn:Ho; simpl.
    + rewrite (feed_some _ _ _ (t + 1) (mkMsg (t + 1) Assistant o t));
        [rewrite Ho; reflexivity|reflexivity|].
      simpl; rewrite find_app, find_none; simpl; [rewrite Z.eqb_refl; reflexivity|].
      eapply Forall_impl; [|exact Hid]; intros m Hm; simpl.
      apply Z.eqb_neq; simpl in Hm; lia.
    + rewrite Ho; apply IH; [reflexivity|exact Hid|exact Ht2].
Qed.

Lemma pieces_concat d cs :
  List.concat (pieces d cs) = snd (Utf8.decode d (List.concat (map fst cs))).
Proof.
  revert d; induction cs as [|[v t] cs IH]; intro d; simpl; [reflexivity|].
  rewrite decode_app.
  destruct (Utf8.decode d v) as [d1 o1]; simpl.
  rewrite IH; destruct (Utf8.decode d1 (List.concat (map fst cs))); reflexivity.
Qed.

Lemma concat_filter_has_text ps :
  Forall (fun p => has_text p || negb (JS.truthy p) = true) ps ->
  List.concat (filter has_text ps) = List.concat ps.
Proof.
  induction 1 as [|p ps Hp _ IH]; simpl; [reflexivity|].
  destruct (has_text p); simpl; rewrite IH; [reflexivity|].
  destruct p; [reflexivity|discriminate].
Qed.

Lemma filter_nil_iff {A} (f : A -> bool) l :
  filter f l = [] <-> existsb f l = false.
Proof.
  induction l as [|x l IH]; simpl; [tauto|].
  destruct (f x); simpl; [split; discriminate|exact IH].
Qed.

Lemma update_content_fresh a f ms :
  Forall (fun m => id m <> a) ms -> update_content a f ms = ms.
Proof.
  induction 1 as [|m ms Hm _ IH]; simpl; [reflexivity|].
  destruct (Z.eqb_spec (id m) a); [contradiction|]; rewrite IH; reflexivity.
Qed.

Lemma nth_update_content a f ms i m :
  nth_error ms i = Some m -> id m <> a ->
  nth_error (update_content a f ms) i = Some m.
Proof.
  intros H Ha; unfold update_content; rewrite nth_error_map, H; simpl.
  destruct (Z.eqb_spec (id m) a); [contradiction|reflexivity].
Qed.

(** Shape of the log while an invocation runs: a fixed prefix, then at
    most the one assistant message it streams into. *)
Definition shape (base : list ChatMessage) (t0 : Z) (h : hook) (r : run) : Prop :=
  exists ext, messages h = base ++ ext /\
    ((assistantMessageId r = None /\ ext = []) \/
     (exists a m, assistantMessageId r = Some a /\ ext = [m] /\ id m = a /\
                  role m = Assistant /\ t0 < a)).

Lemma on_chunk_shape base t0 h r v t :
  Forall (fun m => id m <= t0) base -> t0 <= t ->
  shape base t0 h r ->
  shape base t0 (fst (on_chunk h r v t)) (snd (on_chunk h r v t)).
Proof.
  intros Hb Ht [ext [He Hs]]; unfold on_chunk.
  destruct (Utf8.decode (decoder r) v) as [d' o].
  destruct (JS.truthy o && JS.truthy (JS.trim o)); simpl;
    [|exists ext; split; [exact He|exact Hs]].
  destruct Hs as [[Hn ->]|[a [m [Ha [-> [Hid [Hr Hlt]]]]]]].
  - rewrite Hn; simpl; exists [mkMsg (t + 1) Assistant o t]; split.
    + rewrite He, app_nil_r; reflexivity.
    + right; exists (t + 1), (mkMsg (t + 1) Assistant o t); simpl.
      repeat split; lia.
  - rewrite Ha; simpl.
    exists [mkMsg (id m) (role m) (content m ++ o) (timestamp m)]; split.
    + rewrite He; unfold update_content; rewrite map_app; simpl.
      fold (update_content a (fun m0 => content m0 ++ o) base).
      rewrite update_content_fresh.
      * rewrite Hid, Z.eqb_refl; reflexivity.
      * eapply Forall_impl; [|exact Hb]; simpl; intros; lia.
    + right; exists a, (mkMsg (id m) (role m) (content m ++ o) (timestamp m)).
      simpl; repeat split; assumption.
Qed.

Lemma feed_shape base t0 h r cs :
  Forall (fun m => id m <= t0) base -> Forall (fun vt => t0 <= snd vt) cs ->
  shape base t0 h r -> shape base t0 (fst (feed h r cs)) (snd (feed h r cs)).
Proof.
  revert h r; induction cs as [|[v t] cs IH]; intros h r Hb Hc Hs; [exact Hs|].
  inversion Hc as [|? ? Ht Hc']; subst; simpl in Ht.
  simpl; pose proof (on_chunk_shape base t0 h r v t Hb Ht Hs) as H1.
  destruct (on_chunk h r v t) as [h1 r1]; apply IH; assumption.
Qed.

Lemma feed_app h r cs ds :
  feed h r (cs ++ ds) = let '(h1, r1) := feed h r cs in feed h1 r1 ds.
Proof.
  revert h r; induction cs as [|[v t] cs IH]; intros h r; simpl; [reflexivity|].
  destruct (on_chunk h r v t) as [h1 r1]; apply IH.
Qed.

(** Handlers keep the assistant id once chosen. *)
Lemma on_catch_aid h r t : assistantMessageId (snd (on_catch h r t)) = assistantMessageId r.
Proof. unfold on_catch; destruct (assistantMessageId r) eqn:E; simpl; congruence. Qed.

Lemma on_response_aid h r st b t :
  assistantMessageId (snd (on_response h r st b t)) = assistantMessageId r.
Proof.
  unfold on_response; destruct (negb _); [apply on_catch_aid|].
  destruct (negb _); [apply on_catch_aid|reflexivity].
Qed.

Lemma on_chunk_aid h r v t a :
  assistantMessageId r = Some a -> assistantMessageId (snd (on_chunk h r v t)) = Some a.
Proof.
  intro Ha; unfold on_chunk; destruct (Utf8.decode (decoder r) v).
  rewrite Ha; destruct (_ && _); reflexivity.
Qed.

(** Frame of each handler: a message keeps its place and value unless
    it carries the assistant id of the invocation. *)
Definition framed (k : hook -> run -> hook * run) : Prop :=
  forall h r i m, nth_error (messages h) i = Some m ->
    assistantMessageId (snd (k h r)) <> Some (id m) ->
    nth_error (messages (fst (k h r))) i = Some m.

Lemma on_catch_framed t : framed (fun h r => on_catch h r t).
Proof.
  intros h r i m Hi Ha; rewrite on_catch_aid in Ha; unfold on_catch.
  destruct (assistantMessageId r) as [a|]; simpl.
  - apply nth_update_content; [exact Hi|congruence].
  - rewrite nth_error_app1; [exact Hi|apply nth_error_Some; congruence].
Qed.

Lemma on_response_framed st b t : framed (fun h r => on_response h r st b t).
Proof.
  intros h r i m Hi Ha; unfold on_response in *.
  destruct (negb _); [apply on_catch_framed; assumption|].
  destruct (negb _); [apply on_catch_framed; assumption|exact Hi].
Qed.

Lemma on_chunk_framed v t : framed (fun h r => on_chunk h r v t).
Proof.
  intros h r i m Hi Ha; unfold on_chunk in *.
  destruct (Utf8.decode (decoder r) v) as [d' o].
  destruct (_ && _); [|exact Hi].
  destruct (assistantMessageId r) as [a|]; simpl in *.
  - apply nth_update_content; [exact Hi|congruence].
  - rewrite nth_error_app1; [exact Hi|apply nth_error_Some; congruence].
Qed.

Lemma on_end_framed : framed on_end.
Proof. intros h r i m Hi _; exact Hi. Qed.

End Lemmas.

(** * Lemmas on interleaved invocations *)
Module WorldLemmas.
Import Chatbot World Lemmas.

Lemma nth_replace_same {A} r (x : A) l :
  (r < List.length l)%nat -> nth_error (replace_nth r x l) r = Some x.
Proof.
  revert r; induction l as [|y l IH]; intros r Hr; simpl in Hr; [lia|].
  destruct r; simpl; [reflexivity|apply IH; lia].
Qed.

Lemma nth_replace_other {A} r j (x : A) l :
  j <> r -> nth_error (replace_nth r x l) j = nth_error l j.
Proof.
  revert r j; induction l as [|y l IH]; intros r j Hj; [destruct r; reflexivity|].
  destruct r, j; simpl; try reflexivity; [lia|apply IH; lia].
Qed.

Definition keeps (k : hook -> run -> hook * run) : Prop :=
  forall h x a, assistantMessageId x = Some a ->
    assistantMessageId (snd (k h x)) = Some a.

Lemma resume_frame w r exp k i m :
  framed k -> nth_error (messages (hk w)) i = Some m ->
  (forall ru, In ru (runs (resume w r exp k)) -> assistantMessageId ru <> Some (id m)) ->
  nth_error (messages (hk (resume w r exp k))) i = Some m.
Proof.
  intros Hk Hi Hr; unfold resume in *.
  destruct (nth_error (runs w) r) as [ru|] eqn:N; [|exact Hi].
  destruct (match ph ru, exp with
            | Fetching, Fetching | Reading, Reading => true
            | _, _ => false end); [|exact Hi].
  pose proof (Hk (hk w) ru i m Hi) as Hf.
  destruct (k (hk w) ru) as [h' ru'] eqn:K; simpl in *.
  apply Hf; apply Hr.
  apply nth_error_In with r; apply nth_replace_same.
  apply nth_error_Some; congruence.
Qed.

Lemma resume_keep w r exp k j ru a :
  keeps k -> nth_error (runs w) j = Some ru -> assistantMessageId ru = Some a ->
  exists ru', nth_error (runs (resume w r exp k)) j = Some ru' /\
              assistantMessageId ru' = Some a.
Proof.
  intros Hk Hj Ha; unfold resume.
  destruct (nth_error (runs w) r) as [ru0|] eqn:N; [|exists ru; auto].
  destruct (match ph ru0, exp with
            | Fetching, Fetching | Reading, Reading => true
            | _, _ => false end); [|exists ru; auto].
  pose proof (Hk (hk w) ru0) as Hk0.
  destruct (k (hk w) ru0) as [h' ru'] eqn:K; simpl.
  destruct (Nat.eq_dec j r) as [->|Hne].
  - exists ru'; split.
    + apply nth_replace_same; apply nth_error_Some; congruence.
    + rewrite N in Hj; injection Hj as ->.
      specialize (Hk0 a Ha); simpl in Hk0; exact Hk0.
  - exists ru; split; [rewrite nth_replace_other; assumption|exact Ha].
Qed.

Lemma handlers_keep :
  (forall t, keeps (fun h r => on_catch h r t)) /\
  (forall st b t, keeps (fun h r => on_response h r st b t)) /\
  (forall v t, keeps (fun h r => on_chunk h r v t)) /\
  keeps on_end.
Proof.
  split; [|split; [|split]]; intros; intros h x a Ha.
  - rewrite on_catch_aid; exact Ha.
  - rewrite on_response_aid; exact Ha.
  - apply on_chunk_aid; exact Ha.
  - exact Ha.
Qed.

Lemma step_keep w e j ru a :
  nth_error (runs w) j = Some ru -> assistantMessageId ru = Some a ->
  exists ru', nth_error (runs (step w e)) j = Some ru' /\
              assistantMessageId ru' = Some a.
Proof.
  intros Hj Ha; destruct handlers_keep as [K1 [K2 [K3 K4]]].
  destruct e; simpl; try (eapply resume_keep; eauto).
  destruct (send (hk w) c now) as [[h' ru0]|]; [|exists ru; auto].
  exists ru; split; [|exact Ha]; simpl.
  rewrite nth_error_app1; [exact Hj|apply nth_error_Some; congruence].
Qed.

Lemma steps_keep w es ru a :
  In ru (runs w) -> assistantMessageId ru = Some a ->
  exists ru', In ru' (runs (steps w es)) /\ assistantMessageId ru' = Some a.
Proof.
  revert w ru; induction es as [|e es IH]; intros w ru Hin Ha; [exists ru; auto|].
  apply In_nth_error in Hin as [j Hj].
  destruct (step_keep w e j ru a Hj Ha) as [ru' [Hj' Ha']].
  apply (IH (step w e) ru'); [apply nth_error_In with j; exact Hj'|exact Ha'].
Qed.

Lemma step_frame w e i m :
  nth_error (messages (hk w)) i = Some m ->
  (forall ru, In ru (runs (step w e)) -> assistantMessageId ru <> Some (id m)) ->
  nth_error (messages (hk (step w e))) i = Some m.
Proof.
  intros Hi Hr; destruct e; simpl in *;
    try (eapply resume_frame;
         [first [apply on_catch_framed | apply on_response_framed
                | apply on_chunk_framed | apply on_end_framed] | exact Hi | exact Hr]).
  unfold send in *.
  destruct (negb (JS.truthy (JS.trim c)) || isLoading (hk w)); simpl; [exact Hi|].
  rewrite nth_error_app1; [exact Hi|apply nth_error_Some; congruence].
Qed.

End WorldLemmas.

(** * The properties *)
Module Claims.
Import Chatbot World Aux Lemmas WorldLemmas.

Lemma send_accepts h c t0 :
  isLoading h = false -> JS.trim c <> [] ->
  send h c t0 = Some (mkHook (messages h ++ [mkMsg t0 User (JS.trim c) t0])
                             true (isStreaming h),
                      mkRun Fetching None Utf8.dec_init).
Proof.
  intros HL Hc; unfold send; rewrite HL.
  destruct (JS.trim c) eqn:E; [contradiction|reflexivity].
Qed.

(** C1. A transport error (rejected [fetch], non-2xx status, missing
    body, or rejected read) ends the invocation with exactly one new
    assistant message after the user's, whose content is the apology;
    when a message was already streaming it is that message, same id
    and timestamp, with its content replaced.  Nothing is thrown: the
    model is total and both flags are cleared. *)
Theorem transport_error_apology h c t0 o cs e :
  isLoading h = false -> JS.trim c <> [] ->
  Forall (fun m => id m <= t0) (messages h) -> times_after t0 o cs e ->
  transport_error o e = true ->
  exists m,
    messages (send_run h c t0 o cs e) =
      messages h ++ [mkMsg t0 User (JS.trim c) t0; m] /\
    role m = Assistant /\ content m = apology /\
    isLoading (send_run h c t0 o cs e) = false /\
    isStreaming (send_run h c t0 o cs e) = false /\
    (forall m0, message_at_error h c t0 o cs = Some m0 ->
       m = mkMsg (id m0) (role m0) apology (timestamp m0)).
Proof.
  intros HL Hc Hid [Ho [Hcs He]] Hte.
  unfold send_run, message_at_error; rewrite (send_accepts h c t0 HL Hc).
  set (u := mkMsg t0 User (JS.trim c) t0).
  assert (Hbase : Forall (fun m => id m <= t0) (messages h ++ [u])).
  { apply Forall_app; split; [exact Hid|constructor; [simpl; lia|constructor]]. }
  destruct o as [t|st body t].
  - exists (mkMsg (t + 1) Assistant apology t); simpl.
    rewrite <- app_assoc; repeat split; discriminate.
  - unfold on_response; cbv zeta.
    destruct ((200 <=? st) && (st <=? 299)) eqn:Hok; simpl;
      [destruct body; simpl|];
      try (exists (mkMsg (t + 1) Assistant apology t); simpl;
           rewrite <- app_assoc; repeat split; discriminate).
    simpl in Hte; rewrite Hok in Hte; simpl in Hte.
    destruct e as [|t']; [discriminate|].
    pose proof (feed_shape (messages h ++ [u]) t0
                  (mkHook (messages h ++ [u]) true (isStreaming h))
                  (mkRun Reading None Utf8.dec_init) cs Hbase Hcs) as Hsh.
    specialize (Hsh (ex_intro _ [] (conj (eq_sym (app_nil_r _))
                                         (or_introl (conj eq_refl eq_refl))))).
    destruct (feed (mkHook (messages h ++ [u]) true (isStreaming h))
                   (mkRun Reading None Utf8.dec_init) cs) as [h3 r3].
    simpl in Hsh.
    destruct Hsh as [ext [E3 [[Hn ->]|[a [m [Ha [-> [Hma [Hr Hlt]]]]]]]]].
    + unfold on_catch; rewrite Hn; simpl.
      exists (mkMsg (t' + 1) Assistant apology t').
      rewrite E3, app_nil_r, <- app_assoc.
      repeat split; try reflexivity.
      intros m0 Hm0; unfold streamed_message in Hm0; simpl in Hm0.
      rewrite Hn in Hm0; discriminate.
    + unfold on_catch; rewrite Ha; simpl.
      exists (mkMsg a Assistant apology (timestamp m)).
      assert (Hf : Forall (fun m1 => id m1 <> a) (messages h ++ [u]))
        by (eapply Forall_impl; [|exact Hbase]; simpl; intros; lia).
      rewrite E3; unfold update_content; rewrite map_app.
      fold (update_content a (fun _ => apology) (messages h ++ [u])).
      rewrite (update_content_fresh _ _ _ Hf); simpl.
      rewrite Hma, Z.eqb_refl, Hr, <- app_assoc; simpl.
      repeat split; try reflexivity.
      intros m0 Hm0; unfold streamed_message in Hm0; simpl in Hm0.
      rewrite Ha, E3, find_app, find_none in Hm0.
      * simpl in Hm0; rewrite Hma, Z.eqb_refl in Hm0.
        injection Hm0 as <-; rewrite Hma, Hr; reflexivity.
      * eapply Forall_impl; [|exact Hf]; intros m1 H1; apply Z.eqb_neq; exact H1.
Qed.

Lemma transport_error_apology_witness :
  exists m,
    messages (send_run (mkHook [] false false) [104] 5 (Response 200 true 6)
                       [([72], 7)] (ReadReject 8)) =
      [mkMsg 5 User [104] 5; m] /\ content m = apology.
Proof.
  destruct (transport_error_apology (mkHook [] false false) [104] 5
              (Response 200 true 6) [([72], 7)] (ReadReject 8))
    as [m [H1 [_ [H3 _]]]].
  - reflexivity.
  - discriminate.
  - constructor.
  - split; [lia|split; [repeat constructor; simpl; lia|lia]].
  - reflexivity.
  - exists m; split; [exact H1|exact H3].
Defined.

(** C2 fails: a decoded chunk that is only white space is dropped by
    the test of line 77, so ["a b"] fed as ["a"], [" "], ["b"] streams
    ["ab"] while fed as one chunk it streams ["a b"]. *)
Lemma whitespace_chunk_breaks_split_invariance :
  final_content (feed (mkHook [] false false) fresh_run
                      [([97], 1); ([32], 2); ([98], 3)]) = Some [97; 98] /\
  final_content (feed (mkHook [] false false) fresh_run
                      [([97; 32; 98], 1)]) = Some [97; 32; 98].
Proof. split; reflexivity. Qed.

(** C2, amended.  There is no line splitting: each decoded chunk is
    appended as a whole.  When no decoded chunk is white space only
    (each is empty or holds text), feeding the chunks yields the same
    message content as feeding their concatenation as one chunk. *)
Theorem chunk_split_invariance_text_chunks h r cs t t0 :
  assistantMessageId r = None ->
  Forall (fun m => id m <= t0) (messages h) ->
  Forall (fun vt => t0 <= snd vt) cs -> t0 <= t ->
  Forall (fun p => has_text p || negb (JS.truthy p) = true)
         (pieces (decoder r) cs) ->
  final_content (feed h r cs) =
  final_content (feed h r [(List.concat (map fst cs), t)]).
Proof.
  intros Ha Hid Hcs Ht Hp.
  rewrite (feed_none h r cs t0 Ha Hid Hcs).
  rewrite (feed_none h r _ t0 Ha Hid) by (repeat constructor; exact Ht).
  assert (Hw : pieces (decoder r) [(List.concat (map fst cs), t)] =
               [snd (Utf8.decode (decoder r) (List.concat (map fst cs)))]).
  { simpl; destruct (Utf8.decode (decoder r) (List.concat (map fst cs))); reflexivity. }
  rewrite Hw, <- pieces_concat.
  set (ps := pieces (decoder r) cs) in *.
  simpl; rewrite has_text_concat.
  destruct (existsb has_text ps) eqn:Ex.
  - destruct (filter has_text ps) eqn:F.
    + apply filter_nil_iff in F; congruence.
    + transitivity (Some (List.concat (filter has_text ps)));
        [rewrite F; reflexivity|].
      rewrite concat_filter_has_text by exact Hp; simpl; rewrite app_nil_r;
        reflexivity.
  - apply filter_nil_iff in Ex; rewrite Ex; reflexivity.
Qed.

Lemma chunk_split_invariance_text_chunks_witness :
  final_content (feed (mkHook [] false false) fresh_run [([97], 1); ([98], 2)]) =
  final_content (feed (mkHook [] false false) fresh_run [([97; 98], 3)]).
Proof.
  apply (chunk_split_invariance_text_chunks (mkHook [] false false) fresh_run
           [([97], 1); ([98], 2)] 3 0).
  - reflexivity.
  - constructor.
  - repeat constructor; simpl; lia.
  - lia.
  - repeat constructor.
Defined.

Lemma on_catch_finished h r t : ph (snd (on_catch h r t)) = Finished.
Proof. unfold on_catch; destruct (assistantMessageId r); reflexivity. Qed.

(** C3. No assistant message exists before the first decoded chunk
    holding text: [send] adds only the user message, an accepted
    response leaves the state alone, and a chunk without text changes
    nothing visible.  The first chunk holding text creates the message
    with id [Date.now() + 1], timestamp [Date.now()] and that chunk as
    content; the id is new when every earlier id is at most
    [Date.now()]. *)
Theorem lazy_assistant_creation :
  (forall h c now h1 r1, send h c now = Some (h1, r1) ->
     messages h1 = messages h ++ [mkMsg now User (JS.trim c) now] /\
     assistantMessageId r1 = None) /\
  (forall h r st body now,
     ph (snd (on_response h r st body now)) = Reading ->
     fst (on_response h r st body now) = h) /\
  (forall h r v now, assistantMessageId r = None ->
     let chunk := snd (Utf8.decode (decoder r) v) in
     if has_text chunk then
       messages (fst (on_chunk h r v now)) =
         messages h ++ [mkMsg (now + 1) Assistant chunk now] /\
       assistantMessageId (snd (on_chunk h r v now)) = Some (now + 1)
     else
       fst (on_chunk h r v now) = h /\
       assistantMessageId (snd (on_chunk h r v now)) = None) /\
  (forall h now, Forall (fun m => id m <= now) (messages h) ->
     ~ In (now + 1) (map id (messages h))).
Proof.
  split; [|split; [|split]].
  - intros h c now h1 r1 Hs; unfold send in Hs.
    destruct (_ || _); [discriminate|].
    injection Hs as <- <-; split; reflexivity.
  - intros h r st body now; unfold on_response; cbv zeta.
    destruct (negb _); [rewrite on_catch_finished; discriminate|].
    destruct (negb _); [rewrite on_catch_finished; discriminate|].
    reflexivity.
  - intros h r v now Ha; unfold on_chunk.
    destruct (Utf8.decode (decoder r) v) as [d' o]; simpl.
    rewrite is_content_has_text, Ha.
    destruct (has_text o); split; reflexivity.
  - intros h now Hid Hin.
    apply in_map_iff in Hin as [m [E Hm]].
    rewrite Forall_forall in Hid; specialize (Hid m Hm); lia.
Qed.

Lemma lazy_assistant_creation_witness :
  messages (fst (on_chunk (mkHook [] false false) fresh_run [72] 7)) =
    [mkMsg 8 Assistant [72] 7].
Proof.
  destruct lazy_assistant_creation as [_ [_ [H _]]].
  exact (proj1 (H (mkHook [] false false) fresh_run [72] 7 eq_refl)).
Defined.

Lemma on_chunk_length_some h r v t a :
  assistantMessageId r = Some a ->
  List.length (messages (fst (on_chunk h r v t))) = List.length (messages h) /\
  assistantMessageId (snd (on_chunk h r v t)) = Some a.
Proof.
  intro Ha; unfold on_chunk; destruct (Utf8.decode (decoder r) v) as [d' o].
  rewrite Ha; destruct (_ && _); simpl; split; try reflexivity.
  unfold update_content; apply length_map.
Qed.

Lemma feed_length_some h r cs a :
  assistantMessageId r = Some a ->
  List.length (messages (fst (feed h r cs))) = List.length (messages h) /\
  assistantMessageId (snd (feed h r cs)) = Some a.
Proof.
  revert h r; induction cs as [|[v t] cs IH]; intros h r Ha; simpl; [auto|].
  pose proof (on_chunk_length_some h r v t a Ha) as [L1 A1].
  destruct (on_chunk h r v t) as [h1 r1]; simpl in *.
  rewrite <- L1; apply IH; exact A1.
Qed.

Lemma update_content_app a x y ms :
  update_content a (fun m => content m ++ y) (update_content a (fun m => content m ++ x) ms) =
  update_content a (fun m => content m ++ x ++ y) ms.
Proof.
  unfold update_content; rewrite map_map; apply map_ext; intro m.
  destruct (id m =? a) eqn:E; simpl; rewrite ?E; [rewrite app_assoc|]; reflexivity.
Qed.

Lemma update_content_nil a ms :
  update_content a (fun m => content m ++ []) ms = ms.
Proof.
  unfold update_content; rewrite <- (map_id ms) at 2; apply map_ext; intro m.
  destruct (id m =? a); [rewrite app_nil_r; destruct m; reflexivity|reflexivity].
Qed.

(** While the invocation streams into message [a], a read loop only
    appends to [a] the decoded chunks that hold text. *)
Lemma feed_append_hook h r cs a :
  assistantMessageId r = Some a ->
  fst (feed h r cs) =
    set_messages h (update_content a
      (fun m => content m ++ List.concat (filter has_text (pieces (decoder r) cs)))
      (messages h)) /\
  assistantMessageId (snd (feed h r cs)) = Some a.
Proof.
  revert h r; induction cs as [|[v t] cs IH]; intros h r Ha.
  - simpl; rewrite update_content_nil; destruct h; split; [reflexivity|exact Ha].
  - simpl; unfold on_chunk.
    destruct (Utf8.decode (decoder r) v) as [d' o] eqn:E.
    rewrite is_content_has_text, Ha.
    destruct (has_text o) eqn:Ho; simpl; rewrite ?Ho; simpl.
    + destruct (IH (set_messages h (update_content a (fun m => content m ++ o) (messages h)))
                   (mkRun (ph r) (Some a) d') eq_refl) as [H1 H2].
      rewrite H1; simpl; split; [|exact H2].
      rewrite update_content_app; reflexivity.
    + exact (IH h (mkRun (ph r) (Some a) d') eq_refl).
Qed.

(** C4. Within one read loop the assistant message is created at most
    once.  A read loop adds at most one message to the log.  Once the
    invocation streams into message [a], every later chunk holding text
    is appended to [a]'s content and nothing else changes; from a fresh
    invocation (ids of the log older than every chunk), either no chunk
    holds text and the hook is unchanged, or exactly one assistant
    message is added, created by the first chunk holding text and
    holding every chunk that holds text. *)
Theorem at_most_one_assistant_message h r cs t0 :
  (List.length (messages (fst (feed h r cs))) <= List.length (messages h) + 1)%nat /\
  (forall a, assistantMessageId r = Some a ->
     fst (feed h r cs) =
       set_messages h (update_content a
         (fun m => content m ++ List.concat (filter has_text (pieces (decoder r) cs)))
         (messages h)) /\
     assistantMessageId (snd (feed h r cs)) = Some a) /\
  (assistantMessageId r = None ->
     Forall (fun m => id m <= t0) (messages h) ->
     Forall (fun vt => t0 <= snd vt) cs ->
     (filter has_text (pieces (decoder r) cs) = [] /\ fst (feed h r cs) = h) \/
     exists t, t0 <= t /\
       fst (feed h r cs) =
         mkHook (messages h ++
                 [mkMsg (t + 1) Assistant
                        (List.concat (filter has_text (pieces (decoder r) cs))) t])
                false true).
Proof.
  split; [|split; [intros a Ha; apply feed_append_hook; exact Ha|]].
  - revert h r; induction cs as [|[v t] cs IH]; intros h r; simpl; [lia|].
    destruct (assistantMessageId r) as [a|] eqn:Ha.
    + pose proof (on_chunk_length_some h r v t a Ha) as [L1 A1].
      destruct (on_chunk h r v t) as [h1 r1]; simpl in *.
      rewrite (proj1 (feed_length_some h1 r1 cs a A1)); lia.
    + unfold on_chunk; destruct (Utf8.decode (decoder r) v) as [d' o].
      rewrite Ha; destruct (_ && _); simpl.
      * rewrite (proj1 (feed_length_some _ (mkRun (ph r) (Some (t + 1)) d') cs
                                         (t + 1) eq_refl)); simpl.
        rewrite length_app; simpl; lia.
      * apply IH.
  - revert h r; induction cs as [|[v t] cs IH]; intros h r Ha Hid Ht.
    + left; split; reflexivity.
    + inversion Ht as [|? ? Ht1 Ht2]; subst; simpl in Ht1.
      simpl; unfold on_chunk.
      destruct (Utf8.decode (decoder r) v) as [d' o] eqn:E.
      rewrite is_content_has_text, Ha.
      destruct (has_text o) eqn:Ho; simpl; rewrite ?Ho.
      * right; exists t; split; [exact Ht1|].
        destruct (feed_append_hook (mkHook (messages h ++ [mkMsg (t + 1) Assistant o t]) false true)
                    (mkRun (ph r) (Some (t + 1)) d') cs (t + 1) eq_refl) as [H1 _].
        rewrite H1; simpl.
        unfold update_content; rewrite map_app.
        fold (update_content (t + 1)
                (fun m => content m ++ List.concat (filter has_text (pieces d' cs)))
                (messages h)).
        rewrite update_content_fresh.
        -- simpl; rewrite Z.eqb_refl; reflexivity.
        -- eapply Forall_impl; [|exact Hid]; simpl; intros; lia.
      * exact (IH h (mkRun (ph r) None d') eq_refl Hid Ht2).
Qed.

Lemma at_most_one_assistant_message_witness :
  exists t, fst (feed (mkHook [mkMsg 5 User [104] 5] true false) fresh_run
                      [([72], 7); ([32], 8); ([105], 9)]) =
            mkHook [mkMsg 5 User [104] 5; mkMsg (t + 1) Assistant [72; 105] t] false true.
Proof.
  destruct (proj2 (proj2 (at_most_one_assistant_message
              (mkHook [mkMsg 5 User [104] 5] true false) fresh_run
              [([72], 7); ([32], 8); ([105], 9)] 5)) eq_refl
              ltac:(repeat constructor; simpl; lia)
              ltac:(repeat constructor; simpl; lia)) as [[Hf _]|[t [_ Ht]]].
  - vm_compute in Hf; discriminate Hf.
  - exists t; rewrite Ht; reflexivity.
Defined.

(** C5 fails: the decoder is never flushed, so a stream ending in an
    incomplete sequence (["H"] followed by the lead byte 0xE2) streams
    ["H"], without a trailing U+FFFD. *)
Lemma trailing_partial_sequence_dropped :
  messages (send_run (mkHook [] false false) [104] 5 (Response 200 true 6)
                     [([72; 226], 7)] StreamEnd) =
    [mkMsg 5 User [104] 5; mkMsg 8 Assistant [72] 7].
Proof. reflexivity. Qed.

Lemma on_chunk_decoder h r v t :
  decoder (snd (on_chunk h r v t)) = fst (Utf8.decode (decoder r) v).
Proof.
  unfold on_chunk; destruct (Utf8.decode (decoder r) v) as [d o].
  destruct (_ && _); [destruct (assistantMessageId r)|]; reflexivity.
Qed.

Lemma feed_decoder h r cs :
  decoder (snd (feed h r cs)) = fst (Utf8.decode (decoder r) (List.concat (map fst cs))).
Proof.
  revert h r; induction cs as [|[v t] cs IH]; intros h r; [reflexivity|].
  simpl; rewrite decode_app.
  pose proof (on_chunk_decoder h r v t) as Hd.
  destruct (on_chunk h r v t) as [h1 r1]; simpl in Hd; rewrite IH, Hd.
  destruct (Utf8.decode (decoder r) v) as [d1 o1]; simpl.
  destruct (Utf8.decode d1 (List.concat (map fst cs))); reflexivity.
Qed.

(** The hook after a chunk depends on the chunk only through its
    decoded text. *)
Lemma on_chunk_output h r r' v v' t :
  assistantMessageId r = assistantMessageId r' ->
  snd (Utf8.decode (decoder r) v) = snd (Utf8.decode (decoder r') v') ->
  fst (on_chunk h r v t) = fst (on_chunk h r' v' t).
Proof.
  intros Ha Ho; unfold on_chunk.
  destruct (Utf8.decode (decoder r) v) as [d o];
    destruct (Utf8.decode (decoder r') v') as [d' o']; simpl in Ho; subst o'.
  rewrite Ha; destruct (_ && _); [destruct (assistantMessageId r')|]; reflexivity.
Qed.

Lemma on_chunk_silent h r v t :
  snd (Utf8.decode (decoder r) v) = [] ->
  fst (on_chunk h r v t) = h /\
  assistantMessageId (snd (on_chunk h r v t)) = assistantMessageId r.
Proof.
  intro H; unfold on_chunk; destruct (Utf8.decode (decoder r) v) as [d o].
  simpl in H; subst o; split; reflexivity.
Qed.

Lemma feed_silent h r cs :
  snd (Utf8.decode (decoder r) (List.concat (map fst cs))) = [] ->
  fst (feed h r cs) = h.
Proof.
  revert h r; induction cs as [|[v t] cs IH]; intros h r H; [reflexivity|].
  simpl in H |- *; rewrite decode_app in H.
  pose proof (on_chunk_decoder h r v t) as Hd.
  pose proof (on_chunk_silent h r v t) as Hs.
  destruct (Utf8.decode (decoder r) v) as [d1 o1] eqn:E1.
  destruct (Utf8.decode d1 (List.concat (map fst cs))) as [d2 o2] eqn:E2.
  simpl in H; apply app_eq_nil in H as [-> ->].
  specialize (Hs eq_refl).
  destruct (on_chunk h r v t) as [h1 r1]; simpl in *.
  destruct Hs as [-> _]; apply IH; rewrite Hd, E2; reflexivity.
Qed.

(** A proper prefix of the encoding of a scalar value, fed to a decoder
    between two characters, yields nothing. *)
Lemma prefix_silent (bom : bool) c k :
  128 <= c <= 1114111 -> ~ (55296 <= c <= 57343) ->
  (0 < k < List.length (Utf8.encode c))%nat ->
  snd (Utf8.decode (Utf8.mkDec 0 0 0 128 191 bom) (firstn k (Utf8.encode c))) = [].
Proof.
  intros Hc Hs Hk.
  destruct (Z.eq_dec c 65279) as [->|Hb].
  - simpl in Hk; destruct k as [|[|[|k]]]; [lia| | |lia]; destruct bom; reflexivity.
  - destruct (Z.lt_ge_cases c 2048).
    + apply (Utf8Facts.split_char2 bom c k); [right; exact Hb|lia|exact Hk].
    + destruct (Z.lt_ge_cases c 65536).
      * apply (Utf8Facts.split_char3 bom c k); [right; exact Hb|lia|exact Hs|exact Hk].
      * apply (Utf8Facts.split_char4 bom c k); [right; exact Hb|lia|exact Hk].
Qed.

(** Chunks [(v ++ w, t) :: post] whose bytes after [v] are an incomplete
    sequence, read when the decoder is between two characters after
    [v]: the hook ends as if only [v] had been received. *)
Lemma tail_silent_feed h r v w post t c k :
  Utf8Facts.at_rest (decoder r) ->
  Utf8.bytes_needed (fst (Utf8.decode (decoder r) v)) = 0 ->
  128 <= c <= 1114111 -> ~ (55296 <= c <= 57343) ->
  (0 < k < List.length (Utf8.encode c))%nat ->
  w ++ List.concat (map fst post) = firstn k (Utf8.encode c) ->
  fst (feed h r ((v ++ w, t) :: post)) = fst (feed h r [(v, t)]) /\
  snd (Utf8.decode (decoder r) (v ++ w ++ List.concat (map fst post))) =
  snd (Utf8.decode (decoder r) v).
Proof.
  intros Hrest Hn Hc Hs Hk Hw.
  assert (Hv : Utf8Facts.at_rest (fst (Utf8.decode (decoder r) v)))
    by (apply Utf8Facts.decode_at_rest; exact Hrest).
  pose proof (on_chunk_decoder h r (v ++ w) t) as Hd.
  pose proof (on_chunk_output h r r (v ++ w) v t eq_refl) as Ho.
  rewrite !decode_app in *.
  destruct (Utf8.decode (decoder r) v) as [dv ov] eqn:Ev; simpl in Hn, Hv.
  assert (Hsil : snd (Utf8.decode dv (w ++ List.concat (map fst post))) = []).
  { rewrite Hw, (Hv Hn); apply prefix_silent; assumption. }
  rewrite decode_app in Hsil.
  destruct (Utf8.decode dv w) as [dw ow] eqn:Ew.
  destruct (Utf8.decode dw (List.concat (map fst post))) as [dp op] eqn:Ep.
  simpl in Hsil; apply app_eq_nil in Hsil as [-> ->].
  split.
  - simpl; specialize (Ho ltac:(simpl; rewrite app_nil_r; reflexivity)).
    destruct (on_chunk h r (v ++ w) t) as [h2 r2].
    destruct (on_chunk h r v t) as [h2' r2']; simpl in *.
    subst h2'; apply feed_silent; rewrite Hd, Ep; reflexivity.
  - rewrite decode_app, Ew, Ep; simpl; rewrite !app_nil_r; reflexivity.
Qed.

(** C5, amended.  [decode] is only ever called with [stream: true] and
    the end of the stream flushes nothing.  Take a read loop (fresh
    decoder) whose bytes end in an incomplete multi-byte sequence: a
    proper prefix of a character's encoding, of any length, starting
    inside a chunk [v ++ w] after the complete bytes [v] or at its
    start ([v = []]), and spread over any later chunks [post].  After
    the end of the stream the hook (log and flags) is exactly the one
    of the stream cut after [v], and the decoded text of the whole
    stream is that of the cut stream: no replacement character. *)
Theorem stream_end_drops_incomplete_tail h r pre v w post t c k :
  decoder r = Utf8.dec_init ->
  Utf8.bytes_needed (decoder (snd (feed h r (pre ++ [(v, t)])))) = 0 ->
  128 <= c <= 1114111 -> ~ (55296 <= c <= 57343) ->
  (0 < k < List.length (Utf8.encode c))%nat ->
  w ++ List.concat (map fst post) = firstn k (Utf8.encode c) ->
  fst (on_end (fst (feed h r (pre ++ (v ++ w, t) :: post)))
              (snd (feed h r (pre ++ (v ++ w, t) :: post)))) =
  fst (on_end (fst (feed h r (pre ++ [(v, t)]))) (snd (feed h r (pre ++ [(v, t)])))) /\
  List.concat (pieces (decoder r) (pre ++ (v ++ w, t) :: post)) =
  List.concat (pieces (decoder r) (pre ++ [(v, t)])).
Proof.
  intros Hr Hn Hc Hs Hk Hw.
  assert (Hrest : Utf8Facts.at_rest (decoder (snd (feed h r pre))))
    by (rewrite feed_decoder, Hr; apply Utf8Facts.decode_at_rest; intro; reflexivity).
  assert (Hn' : Utf8.bytes_needed (fst (Utf8.decode (decoder (snd (feed h r pre))) v)) = 0).
  { rewrite feed_decoder, map_app, concat_app, decode_app in Hn; rewrite feed_decoder.
    destruct (Utf8.decode (decoder r) (List.concat (map fst pre))) as [dB oB].
    simpl in Hn |- *; rewrite app_nil_r in Hn.
    destruct (Utf8.decode dB v); exact Hn. }
  destruct (tail_silent_feed (fst (feed h r pre)) (snd (feed h r pre)) v w post t c k
              Hrest Hn' Hc Hs Hk Hw) as [H1 H2].
  split.
  - unfold on_end, fin; rewrite !feed_app.
    destruct (feed h r pre) as [h1 r1]; simpl in H1 |- *; rewrite H1; reflexivity.
  - rewrite !pieces_concat, !map_app, !concat_app; simpl.
    rewrite app_nil_r, <- app_assoc.
    rewrite feed_decoder in H2.
    rewrite !(decode_app (decoder r) (List.concat (map fst pre))).
    destruct (Utf8.decode (decoder r) (List.concat (map fst pre))) as [dB oB].
    simpl in H2 |- *.
    destruct (Utf8.decode dB (v ++ w ++ List.concat (map fst post))) as [d1 o1].
    destruct (Utf8.decode dB v) as [d2 o2]; simpl in H2 |- *; rewrite H2; reflexivity.
Qed.

Lemma stream_end_drops_incomplete_tail_witness :
  fst (on_end (fst (feed (mkHook [mkMsg 5 User [104] 5] true false) fresh_run
                         [([72; 226], 7); ([130], 8)]))
              (snd (feed (mkHook [mkMsg 5 User [104] 5] true false) fresh_run
                         [([72; 226], 7); ([130], 8)]))) =
  fst (on_end (fst (feed (mkHook [mkMsg 5 User [104] 5] true false) fresh_run [([72], 7)]))
              (snd (feed (mkHook [mkMsg 5 User [104] 5] true false) fresh_run [([72], 7)]))).
Proof.
  exact (proj1 (stream_end_drops_incomplete_tail (mkHook [mkMsg 5 User [104] 5] true false)
           fresh_run [] [72] [226] [([130], 8)] 7 8364 2
           eq_refl eq_refl ltac:(lia) ltac:(lia) ltac:(simpl; lia) eq_refl)).
Defined.

(** C6. In the plain-text protocol the end of the stream finalizes the
    invocation: the log is kept as it stands, both flags are cleared and
    the invocation is finished.  Chunks ["Hello "] and ["world"] then the
    end of the stream leave one assistant message ["Hello world"]. *)
Theorem plaintext_stream_end_finalizes :
  (forall h r,
     fst (on_end h r) = mkHook (messages h) false false /\
     ph (snd (on_end h r)) = Finished /\
     assistantMessageId (snd (on_end h r)) = assistantMessageId r) /\
  (forall h c t0 t1 t2 t3,
     isLoading h = false -> JS.trim c <> [] ->
     Forall (fun m => id m <= t0) (messages h) -> t0 <= t2 ->
     send_run h c t0 (Response 200 true t1)
              [(JS.of_string "Hello ", t2); (JS.of_string "world", t3)] StreamEnd =
     mkHook (messages h ++ [mkMsg t0 User (JS.trim c) t0;
                            mkMsg (t2 + 1) Assistant (JS.of_string "Hello world") t2])
            false false).
Proof.
  split; [intros h r; repeat split|].
  intros h c t0 t1 t2 t3 HL Hc Hid Ht.
  unfold send_run; rewrite (send_accepts h c t0 HL Hc).
  set (u := mkMsg t0 User (JS.trim c) t0).
  assert (D1 : Utf8.decode Utf8.dec_init (JS.of_string "Hello ") =
               (Utf8.mkDec 0 0 0 128 191 true, JS.of_string "Hello "))
    by reflexivity.
  assert (D2 : Utf8.decode (Utf8.mkDec 0 0 0 128 191 true) (JS.of_string "world") =
               (Utf8.mkDec 0 0 0 128 191 true, JS.of_string "world"))
    by reflexivity.
  unfold on_response, feed, on_chunk, on_end, fin.
  change ((200 <=? 200) && (200 <=? 299)) with true.
  cbn [negb ph decoder assistantMessageId]; rewrite D1.
  change (JS.truthy (JS.of_string "Hello ") && JS.truthy (JS.trim (JS.of_string "Hello ")))
    with true.
  cbn [negb ph decoder assistantMessageId messages]; rewrite D2.
  change (JS.truthy (JS.of_string "world") && JS.truthy (JS.trim (JS.of_string "world")))
    with true.
  cbn [messages set_messages fst].
  assert (Hf : Forall (fun m => id m <> t2 + 1) (messages h ++ [u])).
  { apply Forall_app; split.
    - eapply Forall_impl; [|exact Hid]; simpl; intros; lia.
    - constructor; [simpl; lia|constructor]. }
  unfold update_content; rewrite map_app.
  fold (update_content (t2 + 1) (fun m => content m ++ JS.of_string "world")
                       (messages h ++ [u])).
  rewrite (update_content_fresh _ _ _ Hf); simpl; rewrite Z.eqb_refl.
  rewrite <- app_assoc; reflexivity.
Qed.

Lemma plaintext_stream_end_finalizes_witness :
  send_run (hk w0) [104] 5 (Response 200 true 6)
           [(JS.of_string "Hello ", 7); (JS.of_string "world", 8)] StreamEnd =
  mkHook [greeting; mkMsg 5 User [104] 5;
          mkMsg 8 Assistant (JS.of_string "Hello world") 7] false false.
Proof.
  apply (proj2 plaintext_stream_end_finalizes); [reflexivity|discriminate| |lia].
  repeat constructor; simpl; lia.
Defined.

(** The whole encoding of a scalar value, fed to a decoder between two
    characters, yields exactly that value and leaves it between two
    characters. *)
Lemma decode_encode_rest (bom : bool) c :
  (bom = true \/ c <> 65279) -> 128 <= c <= 1114111 -> ~ (55296 <= c <= 57343) ->
  Utf8.decode (Utf8.mkDec 0 0 0 128 191 bom) (Utf8.encode c) =
  (Utf8.mkDec 0 0 0 128 191 true, [c]).
Proof.
  intros Hb Hc Hs.
  assert (Hsplit : forall k, (0 < k < List.length (Utf8.encode c))%nat ->
            snd (Utf8.decode (Utf8.mkDec 0 0 0 128 191 bom) (firstn k (Utf8.encode c))) = [] /\
            Utf8.decode (fst (Utf8.decode (Utf8.mkDec 0 0 0 128 191 bom) (firstn k (Utf8.encode c))))
                        (skipn k (Utf8.encode c)) = (Utf8.mkDec 0 0 0 128 191 true, [c])).
  { intros k Hk.
    destruct (Z.lt_ge_cases c 2048);
      [apply Utf8Facts.split_char2; [exact Hb|lia|exact Hk]|].
    destruct (Z.lt_ge_cases c 65536);
      [apply Utf8Facts.split_char3; [exact Hb|lia|exact Hs|exact Hk]|].
    apply Utf8Facts.split_char4; [exact Hb|lia|exact Hk]. }
  assert (Hl : (1 < List.length (Utf8.encode c))%nat).
  { destruct (Z.lt_ge_cases c 2048); [rewrite Utf8Facts.encode2 by lia; simpl; lia|].
    destruct (Z.lt_ge_cases c 65536); [rewrite Utf8Facts.encode3 by lia; simpl; lia|].
    rewrite Utf8Facts.encode4 by lia; simpl; lia. }
  destruct (Hsplit 1%nat ltac:(lia)) as [H1 H2].
  rewrite <- (firstn_skipn 1 (Utf8.encode c)), decode_app.
  destruct (Utf8.decode (Utf8.mkDec 0 0 0 128 191 bom) (firstn 1 (Utf8.encode c))) as [d1 o1].
  cbn [fst snd] in H1, H2; subst o1; rewrite H2; reflexivity.
Qed.

Lemma concat_singleton {A} (ps : list (list A)) (x : A) :
  List.concat ps = [x] ->
  exists ps1 ps2, ps = ps1 ++ [x] :: ps2 /\
    Forall (fun p => p = []) ps1 /\ Forall (fun p => p = []) ps2.
Proof.
  induction ps as [|p ps IH]; simpl; [discriminate|]; intro H.
  destruct p as [|y p]; simpl in H.
  - destruct (IH H) as [ps1 [ps2 [-> [H1 H2]]]].
    exists ([] :: ps1), ps2; repeat split; [constructor; [reflexivity|exact H1]|exact H2].
  - injection H as -> H; apply app_eq_nil in H as [-> H].
    exists [], ps; repeat split; [constructor|]; clear IH.
    induction ps as [|q ps IHps]; [constructor|].
    simpl in H; apply app_eq_nil in H as [-> H]; constructor; [reflexivity|exact (IHps H)].
Qed.

(** C7. From any point of the stream where the decoder sits between two
    characters, the bytes of a multi-byte character split over any
    number of chunks, in any way, decode to exactly that character:
    one chunk's decoded text is the character, every other chunk's is
    empty (no replacement character, nothing dropped), and the decoder
    is left between two characters.  (A U+FEFF at the very start of
    the stream is the byte order mark, which the decoder drops.) *)
Theorem split_multibyte_char pre c cs :
  Utf8.bytes_needed (fst (Utf8.decode Utf8.dec_init pre)) = 0 ->
  (Utf8.bom_seen (fst (Utf8.decode Utf8.dec_init pre)) = true \/ c <> 65279) ->
  128 <= c <= 1114111 -> ~ (55296 <= c <= 57343) ->
  List.concat (map fst cs) = Utf8.encode c ->
  let d := fst (Utf8.decode Utf8.dec_init pre) in
  List.concat (pieces d cs) = [c] /\
  (exists ps1 ps2, pieces d cs = ps1 ++ [c] :: ps2 /\
     Forall (fun p => p = []) ps1 /\ Forall (fun p => p = []) ps2) /\
  fst (Utf8.decode d (List.concat (map fst cs))) = Utf8.mkDec 0 0 0 128 191 true.
Proof.
  intros Hn Hb Hc Hs Hcs d.
  assert (Hr : Utf8Facts.at_rest d)
    by (apply Utf8Facts.decode_at_rest; intro; reflexivity).
  fold d in Hn, Hb.
  assert (He : Utf8.decode d (List.concat (map fst cs)) =
               (Utf8.mkDec 0 0 0 128 191 true, [c])).
  { rewrite Hcs, (Hr Hn); apply decode_encode_rest; assumption. }
  assert (Hp : List.concat (pieces d cs) = [c]) by (rewrite pieces_concat, He; reflexivity).
  split; [exact Hp|split; [apply concat_singleton; exact Hp|rewrite He; reflexivity]].
Qed.

Lemma split_multibyte_char_witness :
  List.concat (pieces (fst (Utf8.decode Utf8.dec_init [72]))
                      [([240], 1); ([159], 2); ([152], 3); ([128], 4)]) = [128512].
Proof.
  exact (proj1 (split_multibyte_char [72] 128512
                  [([240], 1); ([159], 2); ([152], 3); ([128], 4)]
                  eq_refl (or_introl eq_refl) ltac:(lia) ltac:(lia) eq_refl)).
Defined.

(** C8. A decoded chunk passes the test of line 77 exactly when it holds
    a character other than white space.  Such a chunk is appended
    verbatim (untrimmed), creating the message if none exists yet; any
    other chunk leaves the hook state, hence the log and the flags,
    unchanged. *)
Theorem plaintext_unit_content_or_ignored h r v now :
  let chunk := snd (Utf8.decode (decoder r) v) in
  JS.truthy chunk && JS.truthy (JS.trim chunk) = has_text chunk /\
  (has_text chunk = false ->
     fst (on_chunk h r v now) = h /\
     assistantMessageId (snd (on_chunk h r v now)) = assistantMessageId r) /\
  (has_text chunk = true ->
     messages (fst (on_chunk h r v now)) =
       match assistantMessageId r with
       | None => messages h ++ [mkMsg (now + 1) Assistant chunk now]
       | Some a => update_content a (fun m => content m ++ chunk) (messages h)
       end).
Proof.
  intro chunk; subst chunk; unfold on_chunk.
  destruct (Utf8.decode (decoder r) v) as [d' o]; simpl.
  rewrite is_content_has_text.
  split; [reflexivity|split; intro Ho; rewrite Ho].
  - split; reflexivity.
  - destruct (assistantMessageId r); reflexivity.
Qed.

Lemma plaintext_unit_content_or_ignored_witness :
  fst (on_chunk (hk w0) fresh_run [32; 10] 7) = hk w0.
Proof.
  exact (proj1 (proj1 (proj2 (plaintext_unit_content_or_ignored (hk w0) fresh_run
                                [32; 10] 7)) eq_refl)).
Defined.

(** C9 fails: [isLoading] is cleared by the first content, so a second
    [sendMessage] is accepted while the first still streams; its user
    message gets the id [Date.now()], which can equal the first
    invocation's [Date.now() + 1].  The next chunk of the first
    invocation is then appended to that user message too. *)
Lemma concurrent_send_id_collision :
  let tr := [ESend [97] 10; EResponse 0 200 true 11; EChunk 0 [120] 20;
             ESend [98] 21] in
  nth_error (messages (hk (steps w0 tr))) 2 = Some (mkMsg 21 Assistant [120] 20) /\
  nth_error (messages (hk (steps w0 tr))) 3 = Some (mkMsg 21 User [98] 21) /\
  nth_error (messages (hk (steps w0 (tr ++ [EChunk 0 [121] 22])))) 3 =
    Some (mkMsg 21 User [98; 121] 21).
Proof. repeat split; reflexivity. Qed.

(** C9, amended.  Along any interleaving of invocations, a message keeps
    its position and its value unless its id is the assistant id of some
    invocation. *)
Theorem log_frame_by_id w es i m :
  nth_error (messages (hk w)) i = Some m ->
  (forall ru, In ru (runs (steps w es)) -> assistantMessageId ru <> Some (id m)) ->
  nth_error (messages (hk (steps w es))) i = Some m.
Proof.
  revert w; induction es as [|e es IH]; intros w Hi Hr; [exact Hi|].
  simpl in *; apply IH; [|exact Hr].
  apply step_frame; [exact Hi|].
  intros ru Hin Ha.
  destruct (steps_keep (step w e) es ru (id m) Hin Ha) as [ru' [Hin' Ha']].
  exact (Hr ru' Hin' Ha').
Qed.

Lemma log_frame_by_id_witness :
  nth_error (messages (hk (steps w0 [ESend [97] 10; EResponse 0 200 true 11]))) 0 =
  Some greeting.
Proof.
  apply log_frame_by_id; [reflexivity|].
  simpl; intros ru [<-|[]]; discriminate.
Defined.

(** C10. [sendMessage] with a blank input, or while [isLoading] is set,
    returns at once: the state is unchanged and no invocation starts; the
    same holds for the older hook of [part_000]. *)
Theorem rejected_send_is_noop :
  (forall w c now, JS.trim c = [] \/ isLoading (hk w) = true ->
     World.step w (ESend c now) = w) /\
  (forall bh c now o, JS.trim c = [] \/ Bedrock.isLoading bh = true ->
     Bedrock.sendMessage bh c now o = bh).
Proof.
  split.
  - intros w c now H; simpl; unfold send.
    destruct H as [H|H]; rewrite H; [reflexivity|rewrite orb_true_r; reflexivity].
  - intros bh c now o H; unfold Bedrock.sendMessage.
    destruct H as [H|H]; rewrite H; [reflexivity|rewrite orb_true_r; reflexivity].
Qed.

Lemma rejected_send_is_noop_witness :
  World.step w0 (ESend [32; 10] 5) = w0.
Proof. apply (proj1 rejected_send_is_noop); left; reflexivity. Defined.

End Claims.

(** ** Further properties of the chat hook and its callers *)
Module ChatExtras.
Import Chatbot World Aux Lemmas WorldLemmas ChatSession.

(** *** [String.prototype.trim] is idempotent *)

Definition no_lead (s : list Z) : Prop :=
  match s with [] => True | x :: _ => JS.is_ws x = false end.

Lemma trim_start_no_lead s : no_lead (JS.trim_start s).
Proof.
  induction s as [|x s IH]; simpl; [exact I|].
  destruct (JS.is_ws x) eqn:E; [exact IH|exact E].
Qed.

Lemma trim_start_id s : no_lead s -> JS.trim_start s = s.
Proof. destruct s as [|x s]; simpl; [reflexivity|intros H; rewrite H; reflexivity]. Qed.

Lemma trim_start_app_last l x :
  JS.is_ws x = false -> JS.trim_start (l ++ [x]) = JS.trim_start l ++ [x].
Proof.
  intros Hx; induction l as [|y l IH]; simpl.
  - rewrite Hx; reflexivity.
  - destruct (JS.is_ws y); [exact IH|reflexivity].
Qed.

Lemma trim_no_lead s : no_lead (JS.trim s).
Proof.
  unfold JS.trim; pose proof (trim_start_no_lead s) as H.
  destruct (JS.trim_start s) as [|x r]; [exact I|].
  simpl; rewrite trim_start_app_last by exact H.
  rewrite rev_app_distr; simpl; exact H.
Qed.

Lemma trim_idem s : JS.trim (JS.trim s) = JS.trim s.
Proof.
  unfold JS.trim at 1; rewrite (trim_start_id _ (trim_no_lead s)).
  unfold JS.trim; rewrite rev_involutive.
  rewrite (trim_start_id _ (trim_start_no_lead _)); reflexivity.
Qed.

(** *** Handlers of an invocation whose assistant message is gone *)

Lemma In_replace_nth {A} n (x y : A) l :
  In y (replace_nth n x l) -> In y l \/ y = x.
Proof.
  revert n; induction l as [|z l IH]; intros n; destruct n; simpl; try tauto.
  - intros [H|H]; [right; congruence|left; right; exact H].
  - intros [H|H]; [left; left; exact H|]; destruct (IH n H); tauto.
Qed.

(** A handler that, for an invocation streaming into a message absent
    from the log, leaves the log alone and keeps the invocation's id. *)
Definition inert (k : hook -> run -> hook * run) : Prop :=
  forall h ru a, assistantMessageId ru = Some a ->
    Forall (fun m => id m <> a) (messages h) ->
    messages (fst (k h ru)) = messages h /\ assistantMessageId (snd (k h ru)) = Some a.

Lemma on_catch_inert t : inert (fun h ru => on_catch h ru t).
Proof.
  intros h ru a Ha Hf; unfold on_catch; rewrite Ha; simpl.
  split; [apply update_content_fresh; exact Hf|exact Ha].
Qed.

Lemma on_response_inert st b t : inert (fun h ru => on_response h ru st b t).
Proof.
  intros h ru a Ha Hf; unfold on_response.
  destruct (negb _); [apply on_catch_inert; assumption|].
  destruct (negb _); [apply on_catch_inert; assumption|simpl; split; [reflexivity|exact Ha]].
Qed.

Lemma on_chunk_inert v t : inert (fun h ru => on_chunk h ru v t).
Proof.
  intros h ru a Ha Hf; unfold on_chunk.
  destruct (Utf8.decode (decoder ru) v) as [d' o].
  destruct (_ && _); rewrite Ha; simpl;
    [split; [apply update_content_fresh; exact Hf|reflexivity]|split; reflexivity].
Qed.

Lemma on_end_inert : inert on_end.
Proof. intros h ru a Ha _; split; [reflexivity|exact Ha]. Qed.

(** Every invocation of the world is finished or streams into a
    message absent from the log. *)
Definition detached (w : World.world) : Prop :=
  forall ru, In ru (runs w) -> ph ru = Finished \/ exists a, assistantMessageId ru = Some a /\
    Forall (fun m => id m <> a) (messages (hk w)).

Lemma resume_detached w r exp k :
  inert k -> detached w ->
  messages (hk (resume w r exp k)) = messages (hk w) /\ detached (resume w r exp k).
Proof.
  intros Hk Hd; unfold resume.
  destruct (nth_error (runs w) r) as [ru|] eqn:En; [|split; [reflexivity|exact Hd]].
  destruct (Hd ru (nth_error_In _ _ En)) as [Hfin|[a [Ha Hf]]].
  { rewrite Hfin; destruct exp; split; first [reflexivity|exact Hd]. }
  destruct (match ph ru, exp with
            | Fetching, Fetching | Reading, Reading => true
            | _, _ => false end); [|split; [reflexivity|exact Hd]].
  destruct (Hk (hk w) ru a Ha Hf) as [Hm Ha'].
  destruct (k (hk w) ru) as [h' ru']; simpl in *.
  split; [exact Hm|].
  intros ru0 Hin; destruct (In_replace_nth _ _ _ _ Hin) as [Hin0| ->].
  - destruct (Hd ru0 Hin0) as [Hf0|[b [Hb Hfb]]]; [left; exact Hf0|].
    right; exists b; simpl; rewrite Hm; split; assumption.
  - right; exists a; simpl; rewrite Hm; split; assumption.
Qed.

Lemma steps_detached w es :
  detached w -> Forall (fun e => is_send e = false) es ->
  messages (hk (steps w es)) = messages (hk w).
Proof.
  revert w; induction es as [|e es IH]; intros w Hd Hes; [reflexivity|].
  inversion Hes as [|? ? He Hes']; subst; unfold steps; simpl.
  assert (H : messages (hk (step w e)) = messages (hk w) /\ detached (step w e)).
  { destruct e; simpl in He; try discriminate; simpl.
    - apply resume_detached; [apply on_catch_inert|exact Hd].
    - apply resume_detached; [apply on_response_inert|exact Hd].
    - apply resume_detached; [apply on_chunk_inert|exact Hd].
    - apply resume_detached; [apply on_catch_inert|exact Hd].
    - apply resume_detached; [apply on_end_inert|exact Hd]. }
  destruct H as [Hm Hd'].
  rewrite <- Hm; apply IH; assumption.
Qed.

(** X2. The component's [handleSendMessage] guards and trims exactly
    as [sendMessage] does, so its pre-trimming changes nothing: the
    world after it is the one [sendMessage] gives on the raw input, and
    the text box is cleared exactly when the hook accepts the message. *)
Theorem handle_send_message_as_raw_send u now :
  handleSendMessage u now =
    match send (hk (world (session_of u))) (input u) now with
    | None => u
    | Some _ =>
        mkUi [] (mkSession (step (world (session_of u)) (ESend (input u) now))
                           (conversationId (session_of u)))
    end.
Proof.
  unfold handleSendMessage, send; simpl.
  destruct (negb (JS.truthy (JS.trim (input u))) || isLoading (hk (world (session_of u))))
    eqn:E; [reflexivity|].
  unfold send; rewrite trim_idem, E; reflexivity.
Qed.

(** X3. [clearChat] while answers are streaming: when every invocation
    is either finished (done, or failed before any content) or already
    streaming into its assistant message (whose id is not the
    greeting's ["1"]), none of their later chunks, errors or ends brings
    anything back; the log stays the fresh greeting until a new message
    is sent. *)
Theorem clear_chat_discards_streaming_answers s now uuid es :
  (forall ru, In ru (runs (world s)) ->
     ph ru = Finished \/ exists a, assistantMessageId ru = Some a /\ a <> 1) ->
  Forall (fun e => is_send e = false) es ->
  messages (hk (steps (world (clearChat s now uuid)) es)) =
    [mkMsg 1 Assistant (JS.of_string "Hello! How can I assist you today?") now].
Proof.
  intros Hr Hes; rewrite (steps_detached _ es); [reflexivity| |exact Hes].
  intros ru Hin; simpl in Hin; destruct (Hr ru Hin) as [Hfin|[a [Ha Ha1]]];
    [left; exact Hfin|right].
  exists a; split; [exact Ha|]; simpl.
  constructor; [simpl; congruence|constructor].
Qed.

Lemma clear_chat_discards_streaming_answers_witness :
  messages (hk (steps (world (clearChat
      (mkSession (steps w0 [ESend [97] 10; EFetchReject 0 11; ESend [98] 12;
                            EResponse 1 200 true 13; EChunk 1 [120] 20]) 5)
      25 6)) [EChunk 1 [121] 26; EResponse 0 200 true 27; EReadReject 1 28])) =
    [mkMsg 1 Assistant (JS.of_string "Hello! How can I assist you today?") 25].
Proof.
  apply clear_chat_discards_streaming_answers.
  - simpl; intros ru [<-|[<-|[]]]; [left; reflexivity|right].
    exists 21; split; [reflexivity|lia].
  - repeat constructor.
Defined.

(** X4. Every accepted invocation, run to its end whatever the network
    does, leaves both flags cleared and the log extended by the user's
    trimmed message and at most one assistant message. *)
Theorem send_run_settles h c t0 o cs e :
  isLoading h = false -> JS.trim c <> [] ->
  Forall (fun m => id m <= t0) (messages h) -> times_after t0 o cs e ->
  isLoading (send_run h c t0 o cs e) = false /\
  isStreaming (send_run h c t0 o cs e) = false /\
  exists ext,
    messages (send_run h c t0 o cs e) = messages h ++ mkMsg t0 User (JS.trim c) t0 :: ext /\
    (List.length ext <= 1)%nat /\ Forall (fun m => role m = Assistant) ext.
Proof.
  intros HL Hc Hid [Ho [Hcs He]].
  unfold send_run; rewrite (Claims.send_accepts h c t0 HL Hc).
  set (u := mkMsg t0 User (JS.trim c) t0).
  assert (Hbase : Forall (fun m => id m <= t0) (messages h ++ [u])).
  { apply Forall_app; split; [exact Hid|constructor; [simpl; lia|constructor]]. }
  destruct o as [t|st body t].
  - simpl; split; [reflexivity|split; [reflexivity|]].
    exists [mkMsg (t + 1) Assistant apology t]; rewrite <- app_assoc.
    split; [reflexivity|split; [simpl; lia|repeat constructor]].
  - unfold on_response; cbv zeta.
    destruct ((200 <=? st) && (st <=? 299)); simpl; [destruct body; simpl|];
      try (split; [reflexivity|split; [reflexivity|]];
           exists [mkMsg (t + 1) Assistant apology t]; rewrite <- app_assoc;
           split; [reflexivity|split; [simpl; lia|repeat constructor]]).
    pose proof (feed_shape (messages h ++ [u]) t0
                  (mkHook (messages h ++ [u]) true (isStreaming h))
                  (mkRun Reading None Utf8.dec_init) cs Hbase Hcs) as Hsh.
    specialize (Hsh (ex_intro _ [] (conj (eq_sym (app_nil_r _))
                                         (or_introl (conj eq_refl eq_refl))))).
    destruct (feed (mkHook (messages h ++ [u]) true (isStreaming h))
                   (mkRun Reading None Utf8.dec_init) cs) as [h3 r3].
    simpl in Hsh.
    destruct Hsh as [ext [E3 [[Hn ->]|[a [m [Ha [-> [Hma [Hr Hlt]]]]]]]]];
      destruct e as [|t']; simpl.
    + split; [reflexivity|split; [reflexivity|]].
      exists []; rewrite E3, <- app_assoc; split; [reflexivity|split; [simpl; lia|constructor]].
    + unfold on_catch; rewrite Hn; simpl.
      split; [reflexivity|split; [reflexivity|]].
      exists [mkMsg (t' + 1) Assistant apology t']; rewrite E3, app_nil_r, <- app_assoc.
      split; [reflexivity|split; [simpl; lia|repeat constructor]].
    + split; [reflexivity|split; [reflexivity|]].
      exists [m]; rewrite E3, <- app_assoc.
      split; [reflexivity|split; [simpl; lia|repeat constructor; exact Hr]].
    + unfold on_catch; rewrite Ha; simpl.
      split; [reflexivity|split; [reflexivity|]].
      assert (Hf : Forall (fun m1 => id m1 <> a) (messages h ++ [u]))
        by (eapply Forall_impl; [|exact Hbase]; simpl; intros; lia).
      exists [mkMsg (id m) (role m) apology (timestamp m)].
      rewrite E3; unfold update_content; rewrite map_app.
      fold (update_content a (fun _ => apology) (messages h ++ [u])).
      rewrite (update_content_fresh _ _ _ Hf); simpl.
      rewrite Hma, Z.eqb_refl, <- app_assoc.
      split; [reflexivity|split; [simpl; lia|repeat constructor; exact Hr]].
Qed.

Lemma send_run_settles_witness :
  send_run (hk w0) [32; 104] 5 (Response 200 true 6) [([104; 105], 7)] (ReadReject 8) =
  mkHook [greeting; mkMsg 5 User [104] 5; mkMsg 8 Assistant apology 7] false false /\
  isLoading (send_run (hk w0) [32; 104] 5 (Response 200 true 6) [([104; 105], 7)]
                      (ReadReject 8)) = false.
Proof.
  split; [reflexivity|].
  apply (send_run_settles (hk w0) [32; 104] 5 (Response 200 true 6) [([104; 105], 7)]
           (ReadReject 8)); [reflexivity|discriminate| |].
  - repeat constructor; simpl; lia.
  - repeat split; [simpl; lia|repeat constructor; simpl; lia|simpl; lia].
Defined.

End ChatExtras.

(** ** Properties of [analyze] and of what it calls *)
Module AnalysisExtras.
Import Analysis.

(** *** Decimal rendering and [parseInt] of three-digit statuses *)

Lemma num_to_string_3 n :
  100 <= n <= 999 ->
  num_to_string n = [48 + n / 100; 48 + n / 10 mod 10; 48 + n mod 10].
Proof.
  intros H; unfold num_to_string.
  replace (n <? 0) with false by (symmetry; apply Z.ltb_ge; lia).
  replace (Z.to_nat n) with (S (S (Z.to_nat (n - 2))))
    by (rewrite <- !Z2Nat.inj_succ by lia; f_equal; lia).
  assert (H10 : 10 <= n / 10) by (apply Z.div_le_lower_bound; lia).
  assert (H100 : n / 10 / 10 < 10)
    by (rewrite Z.div_div by lia; apply Z.div_lt_upper_bound; lia).
  cbn [digits_aux].
  rewrite (proj2 (Z.ltb_ge n 10)) by lia.
  rewrite (proj2 (Z.ltb_ge (n / 10) 10)) by lia.
  rewrite (proj2 (Z.ltb_lt (n / 10 / 10) 10)) by lia.
  replace (n / 10 / 10) with (n / 100) by (rewrite Z.div_div by lia; reflexivity).
  rewrite (Z.mod_small (n / 100) 10)
    by (split; [apply Z.div_pos; lia|apply Z.div_lt_upper_bound; lia]).
  reflexivity.
Qed.

Lemma digit_char x : 0 <= x <= 9 -> is_digit (48 + x) = true.
Proof.
  intros H; unfold is_digit; apply andb_true_intro; split; apply Z.leb_le; lia.
Qed.

Lemma parse_num_to_string_3 n :
  100 <= n <= 999 -> parse_int_digits (num_to_string n) = n.
Proof.
  intros H; rewrite num_to_string_3 by exact H.
  unfold parse_int_digits; cbn [fold_left].
  Z.div_mod_to_equations; lia.
Qed.

(** [handleApiError] on a message ["HTTP <status>..."]: the first three
    digits are the status. *)
Lemma api_error_toast_http n rest context :
  100 <= n <= 999 ->
  api_error_toast (JS.of_string "HTTP " ++ num_to_string n ++ rest) context =
    (match HTTP_ERROR_MESSAGES n with
     | Some t => t
     | None => JS.of_string "HTTP " ++ num_to_string n ++ JS.of_string " Error"
     end,
     if JS.truthy context then JS.of_string "Failed to " ++ context else []).
Proof.
  intros H; unfold api_error_toast.
  assert (Hm : match3 (JS.of_string "HTTP " ++ num_to_string n ++ rest) =
               Some (num_to_string n)).
  { rewrite num_to_string_3 by exact H.
    generalize (digit_char (n / 100)
                  ltac:(assert (n / 100 < 10) by (apply Z.div_lt_upper_bound; lia);
                        assert (0 <= n / 100) by (apply Z.div_pos; lia); lia))
               (digit_char (n / 10 mod 10)
                  ltac:(pose proof (Z.mod_pos_bound (n / 10) 10); lia))
               (digit_char (n mod 10) ltac:(pose proof (Z.mod_pos_bound n 10); lia)).
    generalize (48 + n / 100) (48 + n / 10 mod 10) (48 + n mod 10).
    intros d1 d2 d3 H1 H2 H3; simpl; rewrite H1, H2, H3; reflexivity. }
  rewrite Hm, parse_num_to_string_3 by exact H; reflexivity.
Qed.

Lemma last_app_cons {A} (l r : list A) (x d : A) :
  last (l ++ x :: r) d = last (x :: r) d.
Proof.
  induction l as [|y l IH]; [reflexivity|].
  rewrite <- app_comm_cons; simpl; rewrite IH.
  destruct l; simpl; [reflexivity|]; destruct (l ++ x :: r) eqn:E;
    [destruct l; discriminate|reflexivity].
Qed.

(** *** [analyze] after the validation *)

Lemma missing_none f :
  missing_names f = [] -> exists a b c d, f = mkFiles (Some a) (Some b) (Some c) (Some d).
Proof.
  destruct f as [[a|] [b|] [c|] [d|]]; cbn; intro H; try discriminate; eauto.
Qed.

Lemma analyze_sent s f fr uuid :
  missing_names f = [] ->
  analyze s f fr uuid =
    analyze_end
      (mkA (analysisData s) true (conversationId s) None
           (toasts s ++ [Show (toast_counter s) TLoading
                              (JS.of_string "Analyzing your data...") None None])
           (toast_counter s + 1))
      (toast_counter s) (analyzeCsvs fr) uuid.
Proof.
  intros H; destruct (missing_none f H) as [a [b [c [d ->]]]]; reflexivity.
Qed.

Lemma analyze_end_err s lt e uuid :
  analyze_end s lt (Err e) uuid =
    mkA (analysisData s) false (conversationId s) (Some (reported_error e))
        (toasts s ++ [Dismiss lt;
                      Show (toast_counter s) TError (fst (api_error_toast (message e) ctx))
                           (Some (snd (api_error_toast (message e) ctx))) (Some 6000)])
        (toast_counter s + 1).
Proof.
  unfold analyze_end, analyze_catch, reported_error, handleApiError.
  destruct (api_error_toast (message e) ctx) as [ti de]; simpl.
  destruct (err_status e) as [[|p|p]|]; simpl;
    try destruct (Z.pos p >=? 400); try destruct (Z.neg p >=? 400);
    simpl; rewrite <- app_assoc; reflexivity.
Qed.

Lemma analyze_failure_form s f fr uuid e :
  missing_names f = [] -> analyzeCsvs fr = Err e ->
  analyze s f fr uuid =
    mkA (analysisData s) false (conversationId s) (Some (reported_error e))
        (toasts s ++ [Show (toast_counter s) TLoading (JS.of_string "Analyzing your data...") None None;
                      Dismiss (toast_counter s);
                      Show (toast_counter s + 1) TError (fst (api_error_toast (message e) ctx))
                           (Some (snd (api_error_toast (message e) ctx))) (Some 6000)])
        (toast_counter s + 2).
Proof.
  intros Hf He; rewrite (analyze_sent s f fr uuid Hf), He, analyze_end_err; simpl.
  rewrite <- app_assoc; f_equal; lia.
Qed.

(** X5. With a file missing, [analyze] sends nothing: it only sets the
    error to the list of exactly the missing files, in the order sales,
    inventory, materials, bill of materials, and shows one warning
    toast; [isAnalyzing], the data and the conversation id are kept. *)
Theorem analyze_missing_files s f fr uuid :
  missing_names f <> [] ->
  analyze s f fr uuid =
    let msg := JS.of_string "Please select all required files: "
               ++ join (JS.of_string ", ") (missing_names f) in
    mkA (analysisData s) (isAnalyzing s) (conversationId s) (Some msg)
        (toasts s ++ [Show (toast_counter s) TWarning (JS.of_string "Missing Files")
                           (Some msg) (Some 5000)])
        (toast_counter s + 1).
Proof.
  intros H; destruct f as [[a|] [b|] [c|] [d|]];
    try (exfalso; apply H; reflexivity); reflexivity.
Qed.

Lemma analyze_missing_files_witness :
  error (analyze (mkA ANull false 7 None [] 1) (mkFiles (Some 1) None (Some 3) None)
                 (FetchFails true []) 9) =
    Some (JS.of_string "Please select all required files: Inventory, Bill of materials").
Proof.
  rewrite analyze_missing_files by discriminate; reflexivity.
Defined.

(** X6. Once the four files are given, the request always settles the
    same way: [isAnalyzing] ends [false], and the loading toast shown
    for it is dismissed right after the request settles. *)
Theorem analyze_request_settles s f fr uuid :
  missing_names f = [] ->
  isAnalyzing (analyze s f fr uuid) = false /\
  exists rest,
    toasts (analyze s f fr uuid) =
      toasts s ++ Show (toast_counter s) TLoading (JS.of_string "Analyzing your data...") None None
              :: Dismiss (toast_counter s) :: rest.
Proof.
  intros Hf; rewrite (analyze_sent s f fr uuid Hf).
  destruct (analyzeCsvs fr) as [d|e].
  - unfold analyze_end; split; [reflexivity|].
    destruct d as [|[ra|]]; cbn -[JS.of_string analyze_catch].
    + unfold analyze_catch, handleApiError; cbn -[JS.of_string api_error_toast].
      destruct (api_error_toast null_read_message ctx); simpl.
      eexists; rewrite <- !app_assoc; reflexivity.
    + destruct (0 <? Z.of_nat (List.length ra)); [|eexists; rewrite <- !app_assoc; reflexivity].
      destruct (0 <? Z.of_nat (List.length (filter is_high_risk ra)));
        simpl; eexists; rewrite <- !app_assoc; reflexivity.
    + eexists; rewrite <- !app_assoc; reflexivity.
  - rewrite analyze_end_err; split; [reflexivity|].
    eexists; simpl; rewrite <- app_assoc; reflexivity.
Qed.

Lemma analyze_request_settles_witness :
  isAnalyzing (analyze (mkA ANull false 7 None [] 1) (mkFiles (Some 1) (Some 2) (Some 3) (Some 4))
                 (FetchFails true (JS.of_string "Failed to fetch")) 9) = false.
Proof.
  exact (proj1 (analyze_request_settles (mkA ANull false 7 None [] 1)
                  (mkFiles (Some 1) (Some 2) (Some 3) (Some 4))
                  (FetchFails true (JS.of_string "Failed to fetch")) 9 eq_refl)).
Defined.

(** X7. A request answered with an analysis replaces the data, starts a
    new conversation, clears the error, and shows the success toast,
    then a warning counting the [expiry] and [stockout] alerts when
    there is at least one. *)
Theorem analyze_success s f fr uuid ra :
  missing_names f = [] -> analyzeCsvs fr = Ok (AObj ra) ->
  analyze s f fr uuid =
    let c := toast_counter s in
    mkA (AObj ra) false uuid None
        (toasts s ++
         [Show c TLoading (JS.of_string "Analyzing your data...") None None;
          Dismiss c;
          Show (c + 1) TSuccess (JS.of_string "Analysis completed successfully!")
               (Some (JS.of_string "Successfully analyze your data")) (Some 4000)] ++
         match count_high ra with
         | O => []
         | n => [Show (c + 2) TWarning (JS.of_string "High Risk Alerts Detected")
                      (Some (JS.of_string "Found " ++ num_to_string (Z.of_nat n)
                             ++ JS.of_string " high priority risk(s) in your analysis"))
                      (Some 8000)]
         end)
        (c + 2 + match count_high ra with O => 0 | _ => 1 end).
Proof.
  intros Hf Hr; rewrite (analyze_sent s f fr uuid Hf), Hr.
  unfold analyze_end, count_high; cbv zeta.
  destruct ra as [l|]; cbn -[JS.of_string num_to_string].
  - destruct l as [|x l]; cbn -[JS.of_string num_to_string filter].
    + unfold set_isAnalyzing; simpl; rewrite <- !app_assoc; simpl; f_equal; lia.
    + destruct (filter is_high_risk (x :: l)) as [|y r];
        unfold set_isAnalyzing; simpl; rewrite <- !app_assoc, <- !Z.add_assoc; simpl;
        reflexivity.
  - unfold set_isAnalyzing; simpl; rewrite <- !app_assoc; simpl; f_equal; lia.
Qed.

Lemma analyze_success_witness :
  error (analyze (mkA ANull false 7 None [] 1) (mkFiles (Some 1) (Some 2) (Some 3) (Some 4))
           (Resp 200 [] TextFails (JsonOk (AObj (Some [JS.of_string "expiry"])))) 9) = None.
Proof.
  rewrite (analyze_success _ _ _ _ (Some [JS.of_string "expiry"])); reflexivity.
Defined.

(** X8. A failed request keeps the previous analysis and conversation
    id, reports the error [reported_error] reads off it (status 0: a
    network message; status 400 or more: the server's message; else the
    message or a default), and shows one error toast. *)
Theorem analyze_failure_keeps_data s f fr uuid e :
  missing_names f = [] -> analyzeCsvs fr = Err e ->
  analysisData (analyze s f fr uuid) = analysisData s /\
  conversationId (analyze s f fr uuid) = conversationId s /\
  isAnalyzing (analyze s f fr uuid) = false /\
  error (analyze s f fr uuid) = Some (reported_error e) /\
  last (toasts (analyze s f fr uuid)) (Dismiss 0) =
    Show (toast_counter s + 1) TError (fst (api_error_toast (message e) ctx))
         (Some (snd (api_error_toast (message e) ctx))) (Some 6000).
Proof.
  intros Hf He; rewrite (analyze_failure_form s f fr uuid e Hf He); simpl.
  repeat split; rewrite last_app_cons; reflexivity.
Qed.

Lemma analyze_failure_keeps_data_witness :
  analysisData (analyze (mkA (AObj None) false 7 None [] 1)
                  (mkFiles (Some 1) (Some 2) (Some 3) (Some 4))
                  (FetchFails false (JS.of_string "aborted")) 9) = AObj None.
Proof.
  exact (proj1 (analyze_failure_keeps_data (mkA (AObj None) false 7 None [] 1)
                  (mkFiles (Some 1) (Some 2) (Some 3) (Some 4))
                  (FetchFails false (JS.of_string "aborted")) 9
                  (mkErr (JS.of_string "aborted") None None None) eq_refl eq_refl)).
Defined.

(** X9. An HTTP error status (400 to 999) whose body is empty, or
    whose body cannot be read, is reported as ["HTTP <status>"] (with
    the status text when the body could not be read), and the error
    toast's title is the status's entry of [HTTP_ERROR_MESSAGES], or
    ["HTTP <status> Error"] for a status without one. *)
Theorem analyze_http_error_title s f st stext txt js uuid :
  missing_names f = [] -> 400 <= st <= 999 ->
  (txt = TextFails \/ exists p, txt = TextOk [] p) ->
  analyze s f (Resp st stext txt js) uuid =
    mkA (analysisData s) false (conversationId s)
        (Some (JS.of_string "HTTP " ++ num_to_string st ++
               match txt with TextFails => [32] ++ stext | _ => [] end))
        (toasts s ++
         [Show (toast_counter s) TLoading (JS.of_string "Analyzing your data...") None None;
          Dismiss (toast_counter s);
          Show (toast_counter s + 1) TError
               (match HTTP_ERROR_MESSAGES st with
                | Some t => t
                | None => JS.of_string "HTTP " ++ num_to_string st ++ JS.of_string " Error"
                end)
               (Some (JS.of_string "Failed to analyze your data")) (Some 6000)])
        (toast_counter s + 2).
Proof.
  intros Hf Hst Ht.
  set (m := JS.of_string "HTTP " ++ num_to_string st ++
            match txt with TextFails => [32] ++ stext | _ => [] end).
  assert (Hok : (200 <=? st) && (st <=? 299) = false).
  { apply andb_false_intro2; apply Z.leb_gt; lia. }
  assert (He : analyzeCsvs (Resp st stext txt js) =
               Err (mkErr m (Some st) (Some stext)
                          (Some (JString [])))).
  { unfold analyzeCsvs; rewrite Hok.
    destruct Ht as [->|[p ->]]; [reflexivity|].
    unfold m; cbn -[num_to_string]; rewrite !app_nil_r; reflexivity. }
  rewrite (analyze_failure_form s f _ uuid _ Hf He).
  assert (Hr : reported_error (mkErr m (Some st) (Some stext) (Some (JString []))) = m).
  { unfold reported_error; simpl.
    destruct st as [|p|p]; try lia.
    replace (Z.pos p >=? 400) with true by (symmetry; apply Z.geb_le; lia); reflexivity. }
  rewrite Hr; simpl message; unfold m.
  rewrite (api_error_toast_http st) by lia; reflexivity.
Qed.

Lemma analyze_http_error_title_witness :
  error (analyze (mkA ANull false 7 None [] 1) (mkFiles (Some 1) (Some 2) (Some 3) (Some 4))
           (Resp 413 (JS.of_string "Payload Too Large") (TextOk [] NotJson) (JsonOk ANull)) 9) =
    Some (JS.of_string "HTTP 413").
Proof.
  rewrite (analyze_http_error_title _ _ 413 _ (TextOk [] NotJson));
    [reflexivity|reflexivity|lia|right; exists NotJson; reflexivity].
Defined.

(** X10. When [fetch] itself rejects: a [TypeError] whose message
    mentions ["fetch"] is reported as ["Network connection failed"]
    with the toast ["Network error - please check your connection"];
    any other rejection is reported by its own message (or the default
    ["Failed to analyze files"] when it has none).  The data and the
    conversation id are kept either way. *)
Theorem analyze_fetch_rejected s f te m uuid :
  missing_names f = [] ->
  let s' := analyze s f (FetchFails te m) uuid in
  analysisData s' = analysisData s /\ conversationId s' = conversationId s /\
  (te && includes m (JS.of_string "fetch") = true ->
     error s' = Some (JS.of_string "Network connection failed") /\
     last (toasts s') (Dismiss 0) =
       Show (toast_counter s + 1) TError
            (JS.of_string "Network error - please check your connection")
            (Some (JS.of_string "Error during analyze your data")) (Some 6000)) /\
  (te && includes m (JS.of_string "fetch") = false ->
     error s' = Some (if JS.truthy m then m else JS.of_string "Failed to analyze files")).
Proof.
  intros Hf s'.
  assert (He : analyzeCsvs (FetchFails te m) = Err (catch_fetch te m)) by reflexivity.
  subst s'; rewrite (analyze_failure_form s f _ uuid _ Hf He).
  unfold catch_fetch.
  destruct (te && includes m (JS.of_string "fetch")) eqn:Hn; simpl.
  - split; [reflexivity|split; [reflexivity|split]].
    + intros _; rewrite last_app_cons; split; reflexivity.
    + discriminate.
  - split; [reflexivity|split; [reflexivity|split]].
    + discriminate.
    + intros _; reflexivity.
Qed.

Lemma analyze_fetch_rejected_witness :
  error (analyze (mkA ANull false 7 None [] 1) (mkFiles (Some 1) (Some 2) (Some 3) (Some 4))
           (FetchFails true (JS.of_string "Failed to fetch")) 9) =
    Some (JS.of_string "Network connection failed").
Proof.
  apply (proj1 (proj1 (proj2 (proj2 (analyze_fetch_rejected (mkA ANull false 7 None [] 1)
           (mkFiles (Some 1) (Some 2) (Some 3) (Some 4)) true
           (JS.of_string "Failed to fetch") 9 eq_refl))) eq_refl)).
Defined.

(** X11. A successful response whose JSON body is [null] is taken as an
    analysis: the data becomes [null], the conversation is reset and
    the success toast is shown; reading its [risk_alerts] then throws,
    so the error is also set and an error toast follows. *)
Theorem analyze_null_body s f st stext txt uuid :
  missing_names f = [] -> 200 <= st <= 299 ->
  let s' := analyze s f (Resp st stext txt (JsonOk ANull)) uuid in
  analysisData s' = ANull /\ conversationId s' = uuid /\ isAnalyzing s' = false /\
  error s' = Some null_read_message /\
  toasts s' = toasts s ++
    [Show (toast_counter s) TLoading (JS.of_string "Analyzing your data...") None None;
     Dismiss (toast_counter s);
     Show (toast_counter s + 1) TSuccess (JS.of_string "Analysis completed successfully!")
          (Some (JS.of_string "Successfully analyze your data")) (Some 4000);
     Dismiss (toast_counter s);
     Show (toast_counter s + 2) TError null_read_message
          (Some (JS.of_string "Error during analyze your data")) (Some 6000)].
Proof.
  intros Hf Hst s'.
  assert (He : analyzeCsvs (Resp st stext txt (JsonOk ANull)) = Ok ANull).
  { unfold analyzeCsvs.
    replace ((200 <=? st) && (st <=? 299)) with true
      by (symmetry; apply andb_true_intro; split; apply Z.leb_le; lia).
    reflexivity. }
  subst s'; rewrite (analyze_sent s f _ uuid Hf), He; simpl.
  rewrite <- !app_assoc; simpl.
  repeat split; try reflexivity.
  rewrite <- !Z.add_assoc; reflexivity.
Qed.

Lemma analyze_null_body_witness :
  error (analyze (mkA ANull false 7 None [] 1) (mkFiles (Some 1) (Some 2) (Some 3) (Some 4))
           (Resp 200 [] TextFails (JsonOk ANull)) 9) = Some null_read_message.
Proof.
  exact (proj1 (proj2 (proj2 (proj2 (analyze_null_body (mkA ANull false 7 None [] 1)
           (mkFiles (Some 1) (Some 2) (Some 3) (Some 4)) 200 [] TextFails 9
           eq_refl ltac:(lia)))))).
Defined.

(** X12. For an error status of 400 or more with a non-empty body, the
    reported error is the body's [message] property, else its [error]
    property, else ["HTTP <status>"] when the body is a JSON value; a
    body that is not JSON, or is [null], is reported as it is. *)
Theorem analyze_error_body_message s f st stext t p js uuid :
  missing_names f = [] -> 400 <= st -> JS.truthy t = true ->
  error (analyze s f (Resp st stext (TextOk t p) js) uuid) =
    Some (match p with
          | JsonValue o =>
              jrender (js_or (f_message o)
                             (js_or (f_error o) (JString (JS.of_string "HTTP " ++ num_to_string st))))
          | NotJson | JsonNull => t
          end).
Proof.
  intros Hf Hst Ht.
  assert (Hok : (200 <=? st) && (st <=? 299) = false).
  { apply andb_false_intro2; apply Z.leb_gt; lia. }
  set (m := match p with
            | JsonValue o =>
                jrender (js_or (f_message o)
                               (js_or (f_error o) (JString (JS.of_string "HTTP " ++ num_to_string st))))
            | NotJson | JsonNull => t
            end).
  assert (He : exists d, analyzeCsvs (Resp st stext (TextOk t p) js) =
                         Err (mkErr m (Some st) (Some stext) d)).
  { unfold analyzeCsvs; rewrite Hok, Ht; unfold m.
    destruct p as [| |o]; eexists; [| |reflexivity];
      cbn -[num_to_string]; rewrite Ht; reflexivity. }
  destruct He as [d He].
  rewrite (analyze_failure_form s f _ uuid _ Hf He); simpl.
  unfold reported_error; simpl.
  destruct st as [|q|q]; try lia.
  replace (Z.pos q >=? 400) with true by (symmetry; apply Z.geb_le; lia); reflexivity.
Qed.

Lemma analyze_error_body_message_witness :
  error (analyze (mkA ANull false 7 None [] 1) (mkFiles (Some 1) (Some 2) (Some 3) (Some 4))
           (Resp 422 [] (TextOk (JS.of_string "{}")
                           (JsonValue (mkObj None (Some (JString (JS.of_string "bad csv")))
                                             None None)))
                 (JsonOk ANull)) 9) =
    Some (JS.of_string "bad csv").
Proof.
  rewrite analyze_error_body_message; [reflexivity|reflexivity|lia|reflexivity].
Defined.

End AnalysisExtras.
